(** * India-Pakistan news dashboard: annotation and analytics pipeline

    A shallow embedding of the server module that categorises articles,
    flags priority articles, aggregates analytics, assesses the crisis
    level and caches the response of [GET /api/news]. *)

From Stdlib Require Import ZArith NArith QArith List String Ascii Bool Arith Lia.
From Stdlib Require Import Permutation Sorted.
Import ListNotations.
Close Scope Q_scope.
Open Scope string_scope.

(** ** JavaScript strings

    A string is a sequence of code units.  The model keeps the code units
    below 256 (the Latin-1 range), on which [toLowerCase] is a map over
    single code units. *)

Module Js.

Definition code (c : ascii) : N := N_of_ascii c.

Definition in_range (lo hi : N) (c : ascii) : bool :=
  ((lo <=? code c) && (code c <=? hi))%N.

(** Upper-case letters of the range: A-Z and the accented capitals
    U+00C0-U+00DE without the multiplication sign U+00D7. *)
Definition is_upper (c : ascii) : bool :=
  in_range 65 90 c || (in_range 192 222 c && negb (code c =? 215)%N).

(** Lower-case letters that have a capital in the range: a-z and
    U+00E0-U+00FE without the division sign U+00F7. *)
Definition is_lower (c : ascii) : bool :=
  in_range 97 122 c || (in_range 224 254 c && negb (code c =? 247)%N).

Definition lower_char (c : ascii) : ascii :=
  if is_upper c then ascii_of_N (code c + 32) else c.

Definition upper_char (c : ascii) : ascii :=
  if is_lower c then ascii_of_N (code c - 32) else c.

(** [String.prototype.toLowerCase]. *)
Fixpoint toLowerCase (s : string) : string :=
  match s with
  | EmptyString => EmptyString
  | String c s' => String (lower_char c) (toLowerCase s')
  end.

(** [s.startsWith(kw)]: exact comparison of code units. *)
Fixpoint startsWith (s kw : string) : bool :=
  match kw, s with
  | EmptyString, _ => true
  | String _ _, EmptyString => false
  | String k kw', String c s' => Ascii.eqb k c && startsWith s' kw'
  end.

(** [String.prototype.includes]: [kw] occurs in [s] at some position. *)
Fixpoint includes (s kw : string) : bool :=
  startsWith s kw ||
  match s with
  | EmptyString => false
  | String _ s' => includes s' kw
  end.

(** Two code units match under the [i] flag of a regular expression when
    their canonical (upper-case) forms agree. *)
Definition eq_ignore_case (a b : ascii) : bool :=
  Ascii.eqb (upper_char a) (upper_char b).

(** The literal pattern [kw], compiled with the [i] flag, matches at the
    start of [s]. *)
Fixpoint matchesAt (kw s : string) : bool :=
  match kw, s with
  | EmptyString, _ => true
  | String _ _, EmptyString => false
  | String k kw', String c s' => eq_ignore_case k c && matchesAt kw' s'
  end.

(** Left-to-right scan of a global regular expression: a match consumes
    the code units it covers, so matches do not overlap.  [skip] is the
    number of code units still covered by the last match. *)
Fixpoint scan (kw : string) (skip : nat) (s : string) : nat :=
  match s with
  | EmptyString => 0
  | String _ s' =>
      match skip with
      | S k => scan kw k s'
      | O => if matchesAt kw s
             then S (scan kw (String.length kw - 1) s')
             else scan kw 0 s'
      end
  end.

(** [const m = s.match(new RegExp(kw, 'gi')); m ? m.length : 0] for a
    pattern [kw] that is a non-empty word without regular-expression
    operators, which all the keywords of the lexicon are. *)
Definition matchCount (s kw : string) : nat := scan kw 0 s.

(** White space of the range, as [\s] matches it: tab to carriage
    return, space, and the no-break space. *)
Definition isSpace (c : ascii) : bool :=
  in_range 9 13 c || (code c =? 32)%N || (code c =? 160)%N.

(** [s.split(/\s+/)]: the pieces between maximal runs of white space,
    the empty pieces at both ends included.  [cur] is the piece being
    read and [inSep] tells that the last code unit was white space. *)
Fixpoint splitFrom (inSep : bool) (cur : string) (s : string) : list string :=
  match s with
  | EmptyString => [cur]
  | String c s' =>
      if isSpace c
      then (if inSep then splitFrom true "" s'
            else cur :: splitFrom true "" s')
      else splitFrom false (cur ++ String c "") s'
  end.

Definition splitSpaces (s : string) : list string := splitFrom false "" s.

Definition isDigit (c : ascii) : bool := in_range 48 57 c.

Fixpoint allDigits (s : string) : bool :=
  match s with
  | EmptyString => true
  | String c s' => isDigit c && allDigits s'
  end.

(** [/^\d+$/.test(s)]. *)
Definition isNumeric (s : string) : bool :=
  negb (String.eqb s "") && allDigits s.

End Js.

(** ** Categorizer *)

(** The lexicon of [categorizeArticle], in declaration order. *)
Module Lexicon.

Definition categories : list (string * list string) :=
  [ ("military",
     [ "military"; "army"; "defense"; "weapons"; "troops"; "soldier";
       "war"; "combat"; "attack"; "missile"; "security force"; "border";
       "terrorist"; "airforce"; "navy"; "artillery"; "ceasefire" ]);
    ("diplomatic",
     [ "diplomatic"; "talks"; "embassy"; "minister"; "peace"; "treaty";
       "negotiate"; "relation"; "dialogue"; "summit"; "delegation";
       "diplomat"; "foreign"; "agreement"; "bilateral"; "cooperation" ]);
    ("economic",
     [ "trade"; "sanctions"; "economy"; "business"; "market"; "export";
       "import"; "investment"; "economic"; "finance"; "commerce";
       "tariff"; "stock"; "currency"; "inflation"; "gdp"; "fiscal" ]);
    ("social",
     [ "cultural"; "people"; "society"; "civilian"; "humanitarian";
       "refugee"; "education"; "health"; "religion"; "festival";
       "tradition"; "community"; "social"; "public"; "citizen" ]) ].

End Lexicon.

(** An object with string keys and numeric values, as the list of its own
    properties in insertion order (the order of [Object.entries]). *)
Definition counters := list (string * nat).

(** [obj[key] = v]: an existing property keeps its place, a new one is
    added last. *)
Fixpoint assign (obj : counters) (key : string) (v : nat) : counters :=
  match obj with
  | [] => [(key, v)]
  | (k, x) :: rest =>
      if String.eqb k key then (k, v) :: rest
      else (k, x) :: assign rest key v
  end.

(** [keywords.reduce((score, keyword) => score + matches, 0)]. *)
Definition keywordScore (textLower : string) (keywords : list string) : nat :=
  fold_left (fun score keyword => score + Js.matchCount textLower keyword)
            keywords 0.

Definition initialScores : counters :=
  [ ("military", 0); ("diplomatic", 0); ("economic", 0); ("social", 0) ].

(** The first loop of [categorizeArticle]: one score per category. *)
Definition scoreCategories (textLower : string) : counters :=
  fold_left
    (fun scores '(category, keywords) =>
       assign scores category (keywordScore textLower keywords))
    Lexicon.categories initialScores.

(** The second loop: a running maximum, replaced only by a strictly
    greater score. *)
Definition pickMax (scores : counters) : string * nat :=
  fold_left
    (fun '(maxCategory, maxScore) '(category, score) =>
       if (maxScore <? score)%nat then (category, score)
       else (maxCategory, maxScore))
    scores ("other", 0).

Definition categorizeArticle (text : string) : string :=
  let textLower := Js.toLowerCase text in
  let scores := scoreCategories textLower in
  let '(maxCategory, maxScore) := pickMax scores in
  if (0 <? maxScore)%nat then maxCategory else "other".

(** ** Priority classifier *)

Definition highPriorityKeywords : list string :=
  [ "attack"; "war"; "missile"; "conflict"; "crisis"; "military";
    "border"; "violated"; "threat"; "army"; "defense"; "security";
    "nuclear"; "weapon"; "terrorism"; "tension"; "dispute" ].

Definition containsHighPriorityKeyword (text : string) : bool :=
  existsb (fun keyword => Js.includes (Js.toLowerCase text) keyword)
          highPriorityKeywords.

Definition isPriorityArticle (text category : string) (sentiment : Z) : bool :=
  (String.eqb category "military" && containsHighPriorityKeyword text)
  || (String.eqb category "diplomatic" && (sentiment <? -2)%Z)
  || (containsHighPriorityKeyword text && (sentiment <? -3)%Z).

(** ** Articles *)

(** The value of an optional text field of a provider record. *)
Inductive jsfield :=
| Undefined
| Null
| Text (s : string).

(** [v || '']: every falsy value, the empty string included, gives the
    empty string. *)
Definition orEmpty (v : jsfield) : string :=
  match v with
  | Text s => s
  | Undefined | Null => ""
  end.

(** The string a value turns into when it is an operand of [+] next to a
    string. *)
Definition toString (v : jsfield) : string :=
  match v with
  | Text s => s
  | Undefined => "undefined"
  | Null => "null"
  end.

(** The [publishedAt] field as [moment(...)] reads it: a point in time in
    milliseconds for a date it can parse, an invalid date for any other
    value, and the current time for [undefined]. *)
Inductive instant :=
| Instant (ms : Z)
| InvalidDate
| NoDate.

(** An article of the provider.  Every article carries the provider's
    [source] object, whose [name] the analytics read. *)
Record RawArticle := {
  title : jsfield;
  description : jsfield;
  url : jsfield;
  image : jsfield;
  publishedAt : instant;
  sourceName : jsfield
}.

(** The result of the sentiment analyzer.  [comparative] is the quotient
    of the score by the number of tokens; the pipeline only copies it. *)
Module Sentiment.

Record Analysis := {
  score : Z;
  comparative : Q;
  positive : list string;
  negative : list string
}.

End Sentiment.

(** An annotated article: the provider's fields ([...article]) and the
    labels added by the request handler. *)
Record Article := {
  raw : RawArticle;
  urlToImage : jsfield;
  sentiment : Z;
  sentimentDetail : Sentiment.Analysis;
  category : string;
  isPriority : bool
}.

(** ** Analytics summary *)

Record CategoryCounts := {
  military : nat;
  diplomatic : nat;
  economic : nat;
  social : nat;
  other : nat
}.

Record SentimentCounts := {
  positive : nat;
  neutral : nat;
  negative : nat
}.

Record Keyword := {
  word : string;
  count : nat
}.

Record Event := {
  eventTitle : jsfield;
  eventDate : instant;
  eventCategory : string;
  eventSentiment : Z;
  eventSource : jsfield;
  eventUrl : jsfield
}.

Inductive CrisisLevel := normal | moderate | elevated | severe.

(** The summary returned by [calculateAnalytics], with the fields the
    properties below are about; [timelineData] and [keyInsights] are left
    out.  [trendingKeywords] is [None] when a count is not a number (see
    [increment]). *)
Record Analytics := {
  categories : CategoryCounts;
  sentimentCounts : SentimentCounts;
  trendingKeywords : option (list Keyword);
  crisisLevel : CrisisLevel;
  significantEvents : list Event;
  lastUpdated : Z
}.

Record Response := {
  articles : list Article;
  analytics : option Analytics
}.

(** ** The process: wall clock, cache, environment *)

Record Cache := {
  data : option Response;
  lastFetched : option Z
}.

(** [fetches] counts the requests sent to the provider. *)
Record World := {
  wallClock : Z;
  newsCache : Cache;
  GNEWS_API_KEY : option string;
  fetches : nat
}.

Inductive Outcome (A : Type) :=
| Ok (a : A)
| Thrown (message : string).
Arguments Ok {A} a.
Arguments Thrown {A} message.

(** A computation that reads and writes the process state and may throw.
    What was written before a throw stays written. *)
Definition IO (A : Type) : Type := World -> Outcome A * World.

Definition ret {A} (a : A) : IO A := fun w => (Ok a, w).

Definition bind {A B} (m : IO A) (k : A -> IO B) : IO B :=
  fun w =>
    match m w with
    | (Ok a, w') => k a w'
    | (Thrown e, w') => (Thrown e, w')
    end.

Definition tryCatch {A} (body : IO A) (handler : string -> IO A) : IO A :=
  fun w =>
    match body w with
    | (Ok a, w') => (Ok a, w')
    | (Thrown e, w') => handler e w'
    end.

Declare Scope io_scope.
Delimit Scope io_scope with io.
Notation "x <- m ;; k" := (bind m (fun x => k))
  (at level 61, m at next level, right associativity) : io_scope.
Notation "m ;; k" := (bind m (fun _ => k))
  (at level 61, right associativity) : io_scope.
Open Scope io_scope.

(** [new Date()] and [moment()]: the wall clock, in milliseconds.
    Synchronous code runs in no time; the clock moves while the handler
    awaits the provider. *)
Definition currentTime : IO Z := fun w => (Ok (wallClock w), w).

Definition readCache : IO Cache := fun w => (Ok (newsCache w), w).

Definition writeCache (c : Cache) : IO unit :=
  fun w => (Ok tt, {| wallClock := wallClock w;
                      newsCache := c;
                      GNEWS_API_KEY := GNEWS_API_KEY w;
                      fetches := fetches w |}).

Definition getenv : IO (option string) := fun w => (Ok (GNEWS_API_KEY w), w).

(** ** Crisis level assessor *)

Definition msPerHour : Z := 3600000.

(** [moment().diff(moment(publishedAt), 'hours')]: the difference in
    milliseconds divided by the length of an hour and truncated toward
    zero; no number for an invalid date. *)
Definition hoursSince (now : Z) (t : instant) : option Z :=
  match t with
  | Instant ms => Some (Z.quot (now - ms) msPerHour)
  | InvalidDate => None
  | NoDate => Some 0%Z
  end.

Definition isRecent (now : Z) (a : Article) : bool :=
  match hoursSince now (publishedAt (raw a)) with
  | Some h => (h <? 48)%Z
  | None => false
  end.

Definition isNegativeMilitary (a : Article) : bool :=
  String.eqb (category a) "military" && (sentiment a <? -2)%Z.

Definition isNegativeDiplomatic (a : Article) : bool :=
  String.eqb (category a) "diplomatic" && (sentiment a <? -2)%Z.

Definition assessCrisisLevel (articles : list Article) : IO CrisisLevel :=
  match articles with
  | [] => ret normal
  | _ =>
      now <- currentTime ;;
      let recentArticles := filter (isRecent now) articles in
      let negativeMilitaryCount :=
        List.length (filter isNegativeMilitary recentArticles) in
      let negativeDiplomaticCount :=
        List.length (filter isNegativeDiplomatic recentArticles) in
      if (5 <=? negativeMilitaryCount)%nat
         || (8 <=? negativeMilitaryCount + negativeDiplomaticCount)%nat
      then ret severe
      else if (3 <=? negativeMilitaryCount)%nat
              || (5 <=? negativeMilitaryCount + negativeDiplomaticCount)%nat
      then ret elevated
      else if (1 <=? negativeMilitaryCount)%nat
              || (2 <=? negativeDiplomaticCount)%nat
      then ret moderate
      else ret normal
  end.

(** ** Trending keywords *)

Definition excludedWords : list string :=
  [ "the"; "and"; "of"; "in"; "to"; "a"; "is"; "for"; "on"; "with"; "as";
    "at"; "by" ].

Definition keepWord (word : string) : bool :=
  (3 <? String.length word)%nat
  && negb (existsb (String.eqb word) excludedWords)
  && negb (Js.isNumeric word).

(** The words one article contributes: [article.title] and
    [article.description] are read as they are, so an absent field
    contributes the word [undefined] or [null]. *)
Definition wordsOf (article : Article) : list string :=
  let text :=
    Js.toLowerCase (toString (title (raw article)) ++ " "
                    ++ toString (description (raw article))) in
  filter keepWord (Js.splitSpaces text).

(** [obj[key]] for an own property. *)
Fixpoint own (obj : counters) (key : string) : option nat :=
  match obj with
  | [] => None
  | (k, x) :: rest => if String.eqb k key then Some x else own rest key
  end.

(** [keywords[word] = (keywords[word] || 0) + 1] on an object that
    inherits from [Object.prototype].  Two lower-case words name inherited
    properties.  For [__proto__] the read gives an object and the write of
    the resulting string is ignored: the word is never counted.  For
    [constructor] the read gives a function and the property is set to a
    string: the counts are no longer all numbers, which [None] stands
    for. *)
Definition increment (keywords : counters) (word : string) : option counters :=
  match own keywords word with
  | Some n => Some (assign keywords word (n + 1))
  | None =>
      if String.eqb word "__proto__" then Some keywords
      else if String.eqb word "constructor" then None
      else Some (assign keywords word 1)
  end.

Definition countWords (words : list string) : option counters :=
  fold_left
    (fun acc word =>
       match acc with
       | Some keywords => increment keywords word
       | None => None
       end)
    words (Some []).

(** [entries.sort((a, b) => b[1] - a[1])].  [Array.prototype.sort] is
    stable: it gives the one ordering by descending count in which entries
    of equal count keep their order, here built by insertion from the
    right. *)
Fixpoint insertByCount (e : string * nat) (sorted : counters) : counters :=
  match sorted with
  | [] => [e]
  | e' :: rest =>
      if (snd e <? snd e')%nat then e' :: insertByCount e rest
      else e :: sorted
  end.

Definition sortByCount (entries : counters) : counters :=
  fold_right insertByCount [] entries.

Definition trending (articles : list Article) : option (list Keyword) :=
  match countWords (flat_map wordsOf articles) with
  | Some keywords =>
      Some (map (fun '(w, c) => {| word := w; count := c |})
                (firstn 10 (sortByCount keywords)))
  | None => None
  end.

(** ** Analytics aggregator *)

Definition hasCategory (name : string) (a : Article) : bool :=
  String.eqb (category a) name.

Definition isSignificant (a : Article) : bool :=
  (String.eqb (category a) "military" && (sentiment a <? -3)%Z)
  || (String.eqb (category a) "diplomatic" && (sentiment a <? -4)%Z).

Definition toEvent (a : Article) : Event :=
  {| eventTitle := title (raw a);
     eventDate := publishedAt (raw a);
     eventCategory := category a;
     eventSentiment := sentiment a;
     eventSource := sourceName (raw a);
     eventUrl := url (raw a) |}.

(** [calculateAnalytics].  An article is a [RawArticle] with its labels
    and so carries the [source] object; an article without it, for which
    the code throws when it reads [source.name], is no input of the
    model. *)
Definition calculateAnalytics (articles : list Article) : IO (option Analytics) :=
  match articles with
  | [] => ret None
  | _ =>
      let categories :=
        {| military := List.length (filter (hasCategory "military") articles);
           diplomatic := List.length (filter (hasCategory "diplomatic") articles);
           economic := List.length (filter (hasCategory "economic") articles);
           social := List.length (filter (hasCategory "social") articles);
           other := List.length (filter (hasCategory "other") articles) |} in
      let sentimentCounts :=
        {| positive := List.length (filter (fun a => 0 <? sentiment a)%Z articles);
           neutral := List.length (filter (fun a => sentiment a =? 0)%Z articles);
           negative := List.length (filter (fun a => sentiment a <? 0)%Z articles) |} in
      let trendingKeywords := trending articles in
      crisisLevel <- assessCrisisLevel articles ;;
      let significantEvents := map toEvent (filter isSignificant articles) in
      now <- currentTime ;;
      ret (Some {| categories := categories;
                   sentimentCounts := sentimentCounts;
                   trendingKeywords := trendingKeywords;
                   crisisLevel := crisisLevel;
                   significantEvents := significantEvents;
                   lastUpdated := now |})
  end.

(** ** Request handler of [GET /api/news] *)

(** What the provider does with one request: the time the handler waits
    for it, and either something thrown before the article list is read
    (by [fetch], by [response.json()], or by [data.articles] on a body
    that is [null]), or a parsed body with or without an [articles]
    list. *)
Inductive FetchResult :=
| FetchThrows (message : string)
| FetchBody (articles : option (list RawArticle)).

Record Upstream := {
  latency : Z;
  result : FetchResult
}.

Definition fetchJson (upstream : Upstream) : IO (option (list RawArticle)) :=
  fun w =>
    let w' := {| wallClock := wallClock w + latency upstream;
                 newsCache := newsCache w;
                 GNEWS_API_KEY := GNEWS_API_KEY w;
                 fetches := S (fetches w) |} in
    match result upstream with
    | FetchThrows message => (Thrown message, w')
    | FetchBody body => (Ok body, w')
    end.

(** [res.json(body)] and [res.status(500).json({ error, details })]. *)
Inductive Reply :=
| Json (body : Response)
| ServerError (error : string) (details : option string).

Definition ttl : Z := 15 * 60 * 1000.

(** [newsCache.data && newsCache.lastFetched &&
    (now - newsCache.lastFetched) < 15 * 60 * 1000]. *)
Definition freshEntry (cache : Cache) (now : Z) : option Response :=
  match data cache, lastFetched cache with
  | Some d, Some t => if (now - t <? ttl)%Z then Some d else None
  | _, _ => None
  end.

(** [!apiKey]: the variable is unset or empty. *)
Definition missingKey (apiKey : option string) : bool :=
  match apiKey with
  | Some k => String.eqb k ""
  | None => true
  end.

Section Server.

(** [sentimentAnalyzer.analyze] of the [sentiment] package. *)
Variable analyze : string -> Sentiment.Analysis.

Definition textToAnalyze (article : RawArticle) : string :=
  let description := orEmpty (description article) in
  toString (title article) ++ " " ++ description.

(** The callback of [data.articles.map]. *)
Definition processArticle (article : RawArticle) : Article :=
  let sentimentScore := analyze (textToAnalyze article) in
  let category := categorizeArticle (textToAnalyze article) in
  {| raw := article;
     urlToImage := image article;
     sentiment := Sentiment.score sentimentScore;
     sentimentDetail := sentimentScore;
     category := category;
     isPriority :=
       isPriorityArticle (textToAnalyze article) category
                         (Sentiment.score sentimentScore) |}.

Definition apiNews (upstream : Upstream) : IO Reply :=
  tryCatch
    (now <- currentTime ;;
     cache <- readCache ;;
     match freshEntry cache now with
     | Some cached => ret (Json cached)
     | None =>
         apiKey <- getenv ;;
         if missingKey apiKey
         then ret (ServerError "API key not configured" None)
         else
           body <- fetchJson upstream ;;
           match body with
           | None => ret (ServerError "Invalid API response" None)
           | Some rawArticles =>
               let processedArticles := map processArticle rawArticles in
               analytics <- calculateAnalytics processedArticles ;;
               let processedResponse :=
                 {| articles := processedArticles;
                    analytics := analytics |} in
               writeCache {| data := Some processedResponse;
                             lastFetched := Some now |} ;;
               ret (Json processedResponse)
           end
     end)
    (fun message =>
       ret (ServerError "Failed to fetch news data" (Some message))).

End Server.

(** * Vocabulary of the properties *)

(** The score of one category of the lexicon on a text: the number of
    keyword occurrences, upper and lower case alike. *)
Definition hits (category text : string) : nat :=
  match find (fun e => String.eqb (fst e) category) Lexicon.categories with
  | Some (_, keywords) => keywordScore (Js.toLowerCase text) keywords
  | None => 0
  end.

(** The text contains a high-priority keyword, upper and lower case
    alike. *)
Definition mentionsHighPriority (text : string) : Prop :=
  exists keyword pre post,
    In keyword highPriorityKeywords
    /\ Js.toLowerCase text = pre ++ keyword ++ post.

(** The 48-hour window in milliseconds: the article is less than 48
    hours old at [now].  An article dated after [now] is in the window, an
    article without a date too, and one with an invalid date is not. *)
Definition withinWindow (now : Z) (a : Article) : bool :=
  match publishedAt (raw a) with
  | Instant ms => (now - ms <? 48 * msPerHour)%Z
  | InvalidDate => false
  | NoDate => true
  end.

(** [M]: the military articles of the window with sentiment below -2. *)
Definition negativeMilitary (now : Z) (articles : list Article) : nat :=
  List.length
    (filter (fun a => withinWindow now a
                      && String.eqb (category a) "military"
                      && (sentiment a <? -2)%Z) articles).

(** [D]: the diplomatic articles of the window with sentiment below -2. *)
Definition negativeDiplomatic (now : Z) (articles : list Article) : nat :=
  List.length
    (filter (fun a => withinWindow now a
                      && String.eqb (category a) "diplomatic"
                      && (sentiment a <? -2)%Z) articles).

(** The thresholds on [M] and [D], the first that applies. *)
Definition levelFor (M D : nat) : CrisisLevel :=
  if (5 <=? M)%nat || (8 <=? M + D)%nat then severe
  else if (3 <=? M)%nat || (5 <=? M + D)%nat then elevated
  else if (1 <=? M)%nat || (2 <=? D)%nat then moderate
  else normal.

(** The order normal < moderate < elevated < severe. *)
Definition rank (level : CrisisLevel) : nat :=
  match level with
  | normal => 0
  | moderate => 1
  | elevated => 2
  | severe => 3
  end.

(** The position of the first occurrence of a word in a list of words
    (the length of the list for a word that does not occur). *)
Fixpoint firstIndex (x : string) (words : list string) : nat :=
  match words with
  | [] => 0
  | y :: rest => if String.eqb y x then 0 else S (firstIndex x rest)
  end.

(** The number of occurrences of a word in a list of words. *)
Definition occurrences (x : string) (words : list string) : nat :=
  count_occ string_dec words x.

(** The ranking of trending keywords: a higher count comes first, and on
    equal counts the word met first in [words]. *)
Definition ranksBefore (words : list string) (a b : Keyword) : Prop :=
  count b < count a
  \/ (count a = count b
      /\ firstIndex (word a) words < firstIndex (word b) words).

(** The loop that counts words, for words that name no inherited
    property. *)
Definition tally (words : list string) (keywords : counters) : counters :=
  fold_left
    (fun keywords word =>
       assign keywords word
              (match own keywords word with Some n => n + 1 | None => 1 end))
    words keywords.

(** The refresh fails: [fetch] or [response.json()] throws, or the body
    has no article list. *)
Definition refreshFails (upstream : Upstream) : Prop :=
  match result upstream with
  | FetchThrows _ => True
  | FetchBody None => True
  | FetchBody (Some _) => False
  end.

(** [kw] occurs in [s] at position [p]. *)
Definition occursAt (kw s : string) (p : nat) : Prop :=
  exists pre post, s = pre ++ kw ++ post /\ String.length pre = p.

(** The occurrences of [kw] in [s] that are counted when [s] is read from
    left to right and occurrences do not overlap: [ps] holds positions of
    occurrences, each at least the length of [kw] after the one before,
    and every occurrence of [kw] begins inside one of them. *)
Definition countedOccurrences (kw s : string) (ps : list nat) : Prop :=
  StronglySorted (fun p q => p + String.length kw <= q) ps
  /\ (forall p, In p ps -> occursAt kw s p)
  /\ (forall q, occursAt kw s q ->
        exists p, In p ps /\ p <= q < p + String.length kw).

(** [n] is the number of occurrences of the keywords in the lower-cased
    text, each keyword counted for itself. *)
Definition keywordOccurrences (keywords : list string) (text : string) (n : nat)
  : Prop :=
  exists counts,
    Forall2 (fun kw c => exists ps,
                 countedOccurrences kw (Js.toLowerCase text) ps
                 /\ List.length ps = c)
            keywords counts
    /\ n = list_sum counts.

(** [n] is the number of keyword occurrences of a category of the
    lexicon in a text. *)
Definition categoryOccurrences (category text : string) (n : nat) : Prop :=
  exists keywords,
    In (category, keywords) Lexicon.categories
    /\ keywordOccurrences keywords text n.

(** The positions at which the scan of a global regular expression finds
    its matches, [pos] being the position of the first code unit of
    [s]. *)
Fixpoint scanPositions (kw : string) (skip pos : nat) (s : string) : list nat :=
  match s with
  | EmptyString => []
  | String _ s' =>
      match skip with
      | S k => scanPositions kw k (S pos) s'
      | O => if Js.matchesAt kw s
             then pos :: scanPositions kw (String.length kw - 1) (S pos) s'
             else scanPositions kw 0 (S pos) s'
      end
  end.

(** * Sample data *)

Definition sampleRaw (t d : jsfield) (at_ : instant) : RawArticle :=
  {| title := t;
     description := d;
     url := Text "https://example.org/a";
     image := Undefined;
     publishedAt := at_;
     sourceName := Text "Example" |}.

(** An annotated article with the given category, sentiment and date. *)
Definition sampleArticle (t : string) (c : string) (s : Z) (at_ : instant)
  : Article :=
  {| raw := sampleRaw (Text t) (Text "") at_;
     urlToImage := Undefined;
     sentiment := s;
     sentimentDetail :=
       {| Sentiment.score := s;
          Sentiment.comparative := inject_Z s;
          Sentiment.positive := [];
          Sentiment.negative := [] |};
     category := c;
     isPriority := false |}.

(** A process with an empty cache and a configured key at time [now]. *)
Definition worldAt (now : Z) : World :=
  {| wallClock := now;
     newsCache := {| data := None; lastFetched := None |};
     GNEWS_API_KEY := Some "key";
     fetches := 0 |}.

(** A toy analyzer: minus two for every [attack], plus one for every
    [peace]. *)
Definition sampleAnalyze (text : string) : Sentiment.Analysis :=
  let s := (Z.of_nat (Js.matchCount text "peace")
            - 2 * Z.of_nat (Js.matchCount text "attack"))%Z in
  {| Sentiment.score := s;
     Sentiment.comparative := inject_Z s;
     Sentiment.positive := [];
     Sentiment.negative := [] |}.

Definition sampleFeed : list Article :=
  [ sampleArticle "India Pakistan talks resume" "diplomatic" 1 (Instant 0);
    sampleArticle "Pakistan border talks" "military" (-3) (Instant 0) ].

Definition sampleBody : list RawArticle :=
  [ sampleRaw (Text "Troops attack near border") Null (Instant 0);
    sampleRaw (Text "Peace talks resume") (Text "Ministers meet") (Instant 0) ].

(** The provider answers with [sampleBody] after 200 ms. *)
Definition providerUp : Upstream :=
  {| latency := 200; result := FetchBody (Some sampleBody) |}.

(** The provider cannot be reached. *)
Definition providerDown : Upstream :=
  {| latency := 5000; result := FetchThrows "network timeout" |}.

(** The process [dt] milliseconds later. *)
Definition later (dt : Z) (w : World) : World :=
  {| wallClock := wallClock w + dt;
     newsCache := newsCache w;
     GNEWS_API_KEY := GNEWS_API_KEY w;
     fetches := fetches w |}.

(** * More of the server and of its clients *)

(** ** Sorting *)

(** [list.sort(compare)] for a comparator that orders by a key.
    [Array.prototype.sort] is stable: it gives the one ordering in which
    elements that compare equal keep their order, here built by insertion
    from the right. *)
Fixpoint insertSorted {A} (compare : A -> A -> Z) (x : A) (sorted : list A)
  : list A :=
  match sorted with
  | [] => [x]
  | y :: rest =>
      if (0 <? compare x y)%Z then y :: insertSorted compare x rest
      else x :: sorted
  end.

Definition sortWith {A} (compare : A -> A -> Z) (l : list A) : list A :=
  fold_right (insertSorted compare) [] l.

(** ** Key insights of [calculateAnalytics] *)

Record Insight := {
  insightTitle : jsfield;
  insightSentiment : Z;
  insightCategory : string
}.

Definition toInsight (a : Article) : Insight :=
  {| insightTitle := title (raw a);
     insightSentiment := sentiment a;
     insightCategory := category a |}.

(** [[...articles].sort((a, b) => a.sentiment - b.sentiment)[0]], and
    [null] when there is no such article. *)
Definition mostNegative (articles : list Article) : option Insight :=
  option_map toInsight
             (hd_error (sortWith (fun a b => sentiment a - sentiment b)%Z articles)).

(** [[...articles].sort((a, b) => b.sentiment - a.sentiment)[0]]. *)
Definition mostPositive (articles : list Article) : option Insight :=
  option_map toInsight
             (hd_error (sortWith (fun a b => sentiment b - sentiment a)%Z articles)).

(** ** The dashboard: category focus *)

(** [Object.entries(analytics.categories)]: the five counts in the order
    in which [calculateAnalytics] writes them. *)
Definition categoryEntries (c : CategoryCounts) : counters :=
  [ ("military", military c); ("diplomatic", diplomatic c);
    ("economic", economic c); ("social", social c); ("other", other c) ].

(** [Object.entries(analytics.categories).sort((a, b) => b[1] - a[1])[0][0]]. *)
Definition categoryFocus (c : CategoryCounts) : option string :=
  option_map fst (hd_error (sortByCount (categoryEntries c))).

(** ** The dashboard: bookmarks and filters *)

(** [a === b] on the values of a text field. *)
Definition strictEq (a b : jsfield) : bool :=
  match a, b with
  | Undefined, Undefined => true
  | Null, Null => true
  | Text s, Text t => String.eqb s t
  | _, _ => false
  end.

Definition sameUrl (bookmark article : Article) : bool :=
  strictEq (url (raw bookmark)) (url (raw article)).

Definition isBookmarked (bookmarks : list Article) (article : Article) : bool :=
  existsb (fun bookmark => sameUrl bookmark article) bookmarks.

(** The update that [toggleBookmark] passes to [setBookmarks]. *)
Definition toggleBookmark (currentBookmarks : list Article) (article : Article)
  : list Article :=
  if isBookmarked currentBookmarks article
  then filter (fun bookmark => negb (sameUrl bookmark article)) currentBookmarks
  else (currentBookmarks ++ [article])%list.

(** [field && field.toLowerCase().includes(searchQuery.toLowerCase())]. *)
Definition fieldMatches (field : jsfield) (searchQuery : string) : bool :=
  match field with
  | Text s =>
      negb (String.eqb s "")
      && Js.includes (Js.toLowerCase s) (Js.toLowerCase searchQuery)
  | Undefined | Null => false
  end.

Definition filteredNews (news : list Article) (activeFilter searchQuery : string)
  : list Article :=
  filter
    (fun article =>
       let matchesFilter :=
         String.eqb activeFilter "all"
         || String.eqb (category article) activeFilter in
       let matchesSearch :=
         String.eqb searchQuery ""
         || fieldMatches (title (raw article)) searchQuery
         || fieldMatches (description (raw article)) searchQuery in
       matchesFilter && matchesSearch)
    news.

(** ** Timeline of [calculateAnalytics]: the grouping by date *)

Module Timeline.

(** The entry of one date in [byDate].  An article of a category that is
    none of these properties adds a property that is not a number, which
    is not represented. *)
Record Day := {
  count : nat;
  military : nat;
  diplomatic : nat;
  economic : nat;
  social : nat
}.

End Timeline.

(** The properties that every object inherits from [Object.prototype]. *)
Definition objectPrototypeNames : list string :=
  [ "constructor"; "__defineGetter__"; "__defineSetter__"; "hasOwnProperty";
    "__lookupGetter__"; "__lookupSetter__"; "isPrototypeOf";
    "propertyIsEnumerable"; "toString"; "valueOf"; "__proto__";
    "toLocaleString" ].

(** [obj[key]] for an own property of an object, given as the list of its
    own properties in insertion order. *)
Fixpoint ownProperty {V} (obj : list (string * V)) (key : string) : option V :=
  match obj with
  | [] => None
  | (k, x) :: rest => if String.eqb k key then Some x else ownProperty rest key
  end.

(** [obj[key] = v]. *)
Fixpoint setProperty {V} (obj : list (string * V)) (key : string) (v : V)
  : list (string * V) :=
  match obj with
  | [] => [(key, v)]
  | (k, x) :: rest =>
      if String.eqb k key then (k, v) :: rest
      else (k, x) :: setProperty rest key v
  end.

(** [day.count++]. *)
Definition countUp (day : Timeline.Day) : Timeline.Day :=
  {| Timeline.count := S (Timeline.count day);
     Timeline.military := Timeline.military day;
     Timeline.diplomatic := Timeline.diplomatic day;
     Timeline.economic := Timeline.economic day;
     Timeline.social := Timeline.social day |}.

(** [day[category]++] on the five numbers of the entry. *)
Definition categoryUp (day : Timeline.Day) (category : string) : Timeline.Day :=
  if String.eqb category "count" then countUp day
  else if String.eqb category "military" then
    {| Timeline.count := Timeline.count day;
       Timeline.military := S (Timeline.military day);
       Timeline.diplomatic := Timeline.diplomatic day;
       Timeline.economic := Timeline.economic day;
       Timeline.social := Timeline.social day |}
  else if String.eqb category "diplomatic" then
    {| Timeline.count := Timeline.count day;
       Timeline.military := Timeline.military day;
       Timeline.diplomatic := S (Timeline.diplomatic day);
       Timeline.economic := Timeline.economic day;
       Timeline.social := Timeline.social day |}
  else if String.eqb category "economic" then
    {| Timeline.count := Timeline.count day;
       Timeline.military := Timeline.military day;
       Timeline.diplomatic := Timeline.diplomatic day;
       Timeline.economic := S (Timeline.economic day);
       Timeline.social := Timeline.social day |}
  else if String.eqb category "social" then
    {| Timeline.count := Timeline.count day;
       Timeline.military := Timeline.military day;
       Timeline.diplomatic := Timeline.diplomatic day;
       Timeline.economic := Timeline.economic day;
       Timeline.social := S (Timeline.social day) |}
  else day.

Definition newDay : Timeline.Day :=
  {| Timeline.count := 0;
     Timeline.military := 0;
     Timeline.diplomatic := 0;
     Timeline.economic := 0;
     Timeline.social := 0 |}.

Section TimelineGrouping.

(** [moment(ms).format('YYYY-MM-DD')]: the calendar date of a point in
    time in the time zone of the server. *)
Variable format : Z -> string.

(** [moment(article.publishedAt).format('YYYY-MM-DD')]. *)
Definition dateOf (now : Z) (t : instant) : string :=
  match t with
  | Instant ms => format ms
  | InvalidDate => "Invalid date"
  | NoDate => format now
  end.

(** The body of [articles.forEach] that fills [byDate].  When the date
    names an inherited property, [byDate[date]] is not an entry of a day,
    which [None] stands for. *)
Definition addToDate (now : Z) (byDate : list (string * Timeline.Day))
           (article : Article) : option (list (string * Timeline.Day)) :=
  let date := dateOf now (publishedAt (raw article)) in
  match ownProperty byDate date with
  | Some day =>
      Some (setProperty byDate date (categoryUp (countUp day) (category article)))
  | None =>
      if existsb (String.eqb date) objectPrototypeNames then None
      else Some (setProperty byDate date
                             (categoryUp (countUp newDay) (category article)))
  end.

(** [Object.entries(byDate)] after the loop; [timelineData] holds these
    entries, ordered by date. *)
Definition groupByDate (now : Z) (articles : list Article)
  : option (list (string * Timeline.Day)) :=
  fold_left
    (fun acc article =>
       match acc with
       | Some byDate => addToDate now byDate article
       | None => None
       end)
    articles (Some []).

End TimelineGrouping.

(** ** The categorizer of the earlier server *)

Module Legacy.

Definition categories : list (string * list string) :=
  [ ("military", [ "military"; "army"; "defense"; "weapons"; "troops" ]);
    ("diplomatic", [ "diplomatic"; "talks"; "embassy"; "minister"; "peace" ]);
    ("economic", [ "trade"; "sanctions"; "economy"; "business"; "market" ]);
    ("social", [ "cultural"; "people"; "society"; "civilian"; "humanitarian" ]) ].

(** The number of keywords of a category that occur in the text. *)
Definition keywordCount (text : string) (keywords : list string) : nat :=
  List.length
    (filter (fun keyword => Js.includes (Js.toLowerCase text) keyword) keywords).

Definition categorizeArticle (text : string) : string :=
  fst (fold_left
         (fun '(maxCategory, maxCount) '(category, keywords) =>
            let count := keywordCount text keywords in
            if (maxCount <? count)%nat then (category, count)
            else (maxCategory, maxCount))
         categories ("other", 0)).

End Legacy.

(** * Vocabulary of the further properties *)

(** [a] is the first element of [l] with the least key. *)
Definition firstLeast {A} (key : A -> Z) (l : list A) (a : A) : Prop :=
  exists pre post,
    l = (pre ++ a :: post)%list
    /\ (forall b, In b pre -> (key a < key b)%Z)
    /\ (forall b, In b post -> (key a <= key b)%Z).


(** Every code unit of a string passes a test. *)
Fixpoint everyChar (p : ascii -> bool) (s : string) : bool :=
  match s with
  | EmptyString => true
  | String c s' => p c && everyChar p s'
  end.


(** The number of keywords of one category of the earlier lexicon that
    occur in a text. *)
Definition legacyHits (category text : string) : nat :=
  match find (fun e => String.eqb (fst e) category) Legacy.categories with
  | Some (_, keywords) => Legacy.keywordCount text keywords
  | None => 0
  end.

(** The sum of a number over the days of the timeline. *)
Definition totalOver (f : Timeline.Day -> nat) (days : list (string * Timeline.Day))
  : nat :=
  fold_right (fun e acc => f (snd e) + acc) 0 days.

(** A calendar for the samples: the day number as the date. *)
Definition sampleFormat (ms : Z) : string :=
  if (ms <? 86400000)%Z then "1970-01-01" else "1970-01-02".

(** An annotated article with the given address. *)
Definition sampleLinked (u : string) : Article :=
  {| raw := {| title := Text "Peace talks";
               description := Text "";
               url := Text u;
               image := Undefined;
               publishedAt := Instant 0;
               sourceName := Text "Example" |};
     urlToImage := Undefined;
     sentiment := 2;
     sentimentDetail := sampleAnalyze "Peace talks ";
     category := "diplomatic";
     isPriority := false |}.

(** * Properties *)

(** ** Strings *)

Lemma startsWith_spec (s kw : string) :
  Js.startsWith s kw = true <-> exists post, s = kw ++ post.
Proof.
  revert s; induction kw as [|k kw IH]; intros s; simpl.
  - split; [intros _; now exists s | intros _; destruct s; reflexivity].
  - destruct s as [|c s]; simpl.
    + split; [discriminate | intros [post H]; discriminate].
    + rewrite andb_true_iff, IH. split.
      * intros [Hk [post ->]]. apply Ascii.eqb_eq in Hk. subst c. now exists post.
      * intros [post H]. injection H as -> ->. split.
        -- apply Ascii.eqb_refl.
        -- now exists post.
Qed.

Lemma includes_spec (s kw : string) :
  Js.includes s kw = true <-> exists pre post, s = pre ++ kw ++ post.
Proof.
  induction s as [|c s IH].
  - cbn [Js.includes]. rewrite orb_false_r, startsWith_spec. split.
    + intros [post H]. now exists "", post.
    + intros [pre [post H]]. destruct pre; [now exists post | discriminate].
  - cbn [Js.includes]. rewrite orb_true_iff, startsWith_spec, IH. split.
    + intros [[post H] | [pre [post H]]].
      * now exists "", post.
      * exists (String c pre), post. simpl. now rewrite H.
    + intros [pre [post H]]. destruct pre as [|c' pre].
      * left. now exists post.
      * right. simpl in H. injection H as _ H. now exists pre, post.
Qed.

Lemma lower_char_idempotent (c : ascii) :
  Js.lower_char (Js.lower_char c) = Js.lower_char c.
Proof.
  destruct c as [[] [] [] [] [] [] [] []]; reflexivity.
Qed.

Lemma toLowerCase_idempotent (s : string) :
  Js.toLowerCase (Js.toLowerCase s) = Js.toLowerCase s.
Proof.
  induction s as [|c s IH]; simpl; [reflexivity|].
  now rewrite lower_char_idempotent, IH.
Qed.

Lemma upper_lower_char (c : ascii) :
  Js.upper_char (Js.lower_char c) = Js.upper_char c.
Proof.
  destruct c as [[] [] [] [] [] [] [] []]; reflexivity.
Qed.

Lemma matchesAt_toLowerCase (kw s : string) :
  Js.matchesAt kw (Js.toLowerCase s) = Js.matchesAt kw s.
Proof.
  revert s. induction kw as [|k kw IH]; intros [|c s]; simpl; try reflexivity.
  unfold Js.eq_ignore_case. now rewrite upper_lower_char, IH.
Qed.

(** With the [i] flag the count of matches is the same on a text and on
    its lower-case form. *)
Lemma matchCount_toLowerCase (s kw : string) :
  Js.matchCount (Js.toLowerCase s) kw = Js.matchCount s kw.
Proof.
  unfold Js.matchCount. generalize 0 as skip.
  induction s as [|c s IH]; intros skip; [reflexivity|].
  cbn [Js.toLowerCase Js.scan]. destruct skip as [|skip]; [|apply IH].
  change (String (Js.lower_char c) (Js.toLowerCase s))
    with (Js.toLowerCase (String c s)).
  now rewrite matchesAt_toLowerCase, !IH.
Qed.

(** ** Categorizer *)

Lemma scoreCategories_entries (textLower : string) :
  scoreCategories textLower =
  map (fun e => (fst e, keywordScore textLower (snd e))) Lexicon.categories.
Proof.
  unfold scoreCategories, Lexicon.categories. cbn [fold_left map fst snd].
  repeat match goal with
         | |- context [keywordScore textLower ?l] =>
             generalize (keywordScore textLower l); intro
         end.
  reflexivity.
Qed.

Lemma hits_score (name : string) (keywords : list string) (text : string) :
  In (name, keywords) Lexicon.categories ->
  hits name text = keywordScore (Js.toLowerCase text) keywords.
Proof.
  unfold Lexicon.categories; simpl.
  intros [H | [H | [H | [H | []]]]]; injection H as <- <-; reflexivity.
Qed.

Lemma pickMax_cases (m d e s : nat) :
  let chosen :=
    (let '(maxCategory, maxScore) :=
       pickMax [ ("military", m); ("diplomatic", d); ("economic", e);
                 ("social", s) ] in
     if (0 <? maxScore)%nat then maxCategory else "other") in
  (chosen = "military" /\ 0 < m /\ d <= m /\ e <= m /\ s <= m)
  \/ (chosen = "diplomatic" /\ m < d /\ e <= d /\ s <= d)
  \/ (chosen = "economic" /\ m < e /\ d < e /\ s <= e)
  \/ (chosen = "social" /\ m < s /\ d < s /\ e < s)
  \/ (chosen = "other" /\ m = 0 /\ d = 0 /\ e = 0 /\ s = 0).
Proof.
  unfold pickMax. cbn [fold_left].
  repeat match goal with
         | |- context [(?a <? ?b)%nat] =>
             destruct (Nat.ltb_spec a b); cbn [fst snd]
         end;
    try lia; intuition lia.
Qed.

Lemma categorizeArticle_cases (text : string) :
  let c := categorizeArticle text in
  let m := hits "military" text in
  let d := hits "diplomatic" text in
  let e := hits "economic" text in
  let s := hits "social" text in
  (c = "military" /\ 0 < m /\ d <= m /\ e <= m /\ s <= m)
  \/ (c = "diplomatic" /\ m < d /\ e <= d /\ s <= d)
  \/ (c = "economic" /\ m < e /\ d < e /\ s <= e)
  \/ (c = "social" /\ m < s /\ d < s /\ e < s)
  \/ (c = "other" /\ m = 0 /\ d = 0 /\ e = 0 /\ s = 0).
Proof.
  intros c m d e s.
  pose proof (pickMax_cases m d e s) as H.
  replace c with
    (let '(maxCategory, maxScore) :=
       pickMax [ ("military", m); ("diplomatic", d); ("economic", e);
                 ("social", s) ] in
     if (0 <? maxScore)%nat then maxCategory else "other"); [exact H|].
  subst c. unfold categorizeArticle. rewrite scoreCategories_entries.
  reflexivity.
Qed.

(** ** Priority classifier *)

Lemma containsHighPriorityKeyword_spec (text : string) :
  containsHighPriorityKeyword text = true <-> mentionsHighPriority text.
Proof.
  unfold containsHighPriorityKeyword, mentionsHighPriority.
  rewrite existsb_exists. split.
  - intros [keyword [Hin H]]. apply includes_spec in H.
    destruct H as [pre [post H]]. now exists keyword, pre, post.
  - intros [keyword [pre [post [Hin H]]]]. exists keyword. split; [assumption|].
    apply includes_spec. now exists pre, post.
Qed.

(** C4. [isPriorityArticle] is true exactly when the category is military
    and the text contains a high-priority keyword, or the category is
    diplomatic and the sentiment is below -2, or the text contains a
    high-priority keyword and the sentiment is below -3.  So it is false
    when the sentiment is at least -2 and the article is not a military
    one with a keyword. *)
Theorem isPriorityArticle_three_clauses
  (text category : string) (sentiment : Z) :
  (isPriorityArticle text category sentiment = true <->
     (category = "military" /\ mentionsHighPriority text)
     \/ (category = "diplomatic" /\ (sentiment < -2)%Z)
     \/ (mentionsHighPriority text /\ (sentiment < -3)%Z))
  /\ ((-2 <= sentiment)%Z ->
      ~ (category = "military" /\ mentionsHighPriority text) ->
      isPriorityArticle text category sentiment = false).
Proof.
  assert (Hiff : isPriorityArticle text category sentiment = true <->
     (category = "military" /\ mentionsHighPriority text)
     \/ (category = "diplomatic" /\ (sentiment < -2)%Z)
     \/ (mentionsHighPriority text /\ (sentiment < -3)%Z)).
  { unfold isPriorityArticle.
    rewrite !orb_true_iff, !andb_true_iff, !String.eqb_eq, !Z.ltb_lt,
      containsHighPriorityKeyword_spec.
    tauto. }
  split; [exact Hiff|].
  intros Hs Hm. apply not_true_is_false. rewrite Hiff.
  intros [H | [[_ H] | [_ H]]]; [tauto | lia | lia].
Qed.

(** ** Crisis level assessor *)

Lemma quot_hours_lt (x : Z) :
  (Z.quot x msPerHour <? 48)%Z = (x <? 48 * msPerHour)%Z.
Proof.
  unfold msPerHour.
  destruct (Z.ltb_spec x (48 * 3600000)) as [H | H].
  - apply Z.ltb_lt. destruct (Z.le_gt_cases 0 x) as [H0 | H0].
    + apply Z.quot_lt_upper_bound; lia.
    + assert (Z.quot x 3600000 <= 0)%Z; [|lia].
      apply Z.quot_le_upper_bound; lia.
  - apply Z.ltb_ge. apply Z.quot_le_lower_bound; lia.
Qed.

Lemma isRecent_withinWindow (now : Z) (a : Article) :
  isRecent now a = withinWindow now a.
Proof.
  unfold isRecent, withinWindow, hoursSince.
  destruct (publishedAt (raw a)); [apply quot_hours_lt | reflexivity | reflexivity].
Qed.

Lemma filter_filter {A} (p q : A -> bool) (l : list A) :
  filter q (filter p l) = filter (fun a => p a && q a) l.
Proof.
  induction l as [|a l IH]; simpl; [reflexivity|].
  destruct (p a); simpl; [destruct (q a)|]; now rewrite ?IH.
Qed.

Lemma assessCrisisLevel_levelFor (articles : list Article) (w : World) :
  assessCrisisLevel articles w =
  (Ok (levelFor (negativeMilitary (wallClock w) articles)
                (negativeDiplomatic (wallClock w) articles)), w).
Proof.
  destruct articles as [|a0 rest]; [reflexivity|].
  unfold assessCrisisLevel, bind, currentTime. cbv beta iota.
  generalize (a0 :: rest); intros articles.
  unfold negativeMilitary, negativeDiplomatic, levelFor.
  rewrite !filter_filter.
  rewrite (filter_ext _ (fun a => withinWindow (wallClock w) a
                                  && String.eqb (category a) "military"
                                  && (sentiment a <? -2)%Z)).
  2:{ intros a. unfold isNegativeMilitary.
      now rewrite isRecent_withinWindow, andb_assoc. }
  rewrite (filter_ext (fun a => isRecent (wallClock w) a && isNegativeDiplomatic a)
                      (fun a => withinWindow (wallClock w) a
                                && String.eqb (category a) "diplomatic"
                                && (sentiment a <? -2)%Z)).
  2:{ intros a. unfold isNegativeDiplomatic.
      now rewrite isRecent_withinWindow, andb_assoc. }
  repeat match goal with
         | |- context [if ?b then _ else _] => destruct b
         end; reflexivity.
Qed.

Lemma levelFor_cases (M D : nat) :
  (levelFor M D = severe /\ (5 <= M \/ 8 <= M + D))
  \/ (levelFor M D = elevated /\ M < 5 /\ M + D < 8 /\ (3 <= M \/ 5 <= M + D))
  \/ (levelFor M D = moderate /\ M < 3 /\ M + D < 5 /\ (1 <= M \/ 2 <= D))
  \/ (levelFor M D = normal /\ M = 0 /\ D <= 1).
Proof.
  unfold levelFor.
  repeat match goal with
         | |- context [(?a <=? ?b)%nat] => destruct (Nat.leb_spec a b)
         end; cbn [orb]; intuition lia.
Qed.

(** C2, amended.  The evaluation time is the wall clock of the process at
    the call.  With [M] and [D] the military and the diplomatic articles
    of the 48-hour window with sentiment below -2, the call returns
    severe when [M >= 5] or [M + D >= 8], else elevated when [M >= 3] or
    [M + D >= 5], else moderate when [M >= 1] or [D >= 2], else normal;
    it returns normal for no article. *)
Theorem assessCrisisLevel_thresholds (articles : list Article) (w : World) :
  let M := negativeMilitary (wallClock w) articles in
  let D := negativeDiplomatic (wallClock w) articles in
  exists level,
    assessCrisisLevel articles w = (Ok level, w)
    /\ (level = severe <-> 5 <= M \/ 8 <= M + D)
    /\ (level = elevated <->
          ~ (5 <= M \/ 8 <= M + D) /\ (3 <= M \/ 5 <= M + D))
    /\ (level = moderate <->
          ~ (5 <= M \/ 8 <= M + D) /\ ~ (3 <= M \/ 5 <= M + D)
          /\ (1 <= M \/ 2 <= D))
    /\ (level = normal <->
          ~ (5 <= M \/ 8 <= M + D) /\ ~ (3 <= M \/ 5 <= M + D)
          /\ ~ (1 <= M \/ 2 <= D))
    /\ (articles = [] -> level = normal).
Proof.
  intros M D. exists (levelFor M D).
  split; [apply assessCrisisLevel_levelFor|].
  assert (Hempty : articles = [] -> levelFor M D = normal).
  { intros ->. reflexivity. }
  clearbody M D.
  destruct (levelFor_cases M D) as [H | [H | [H | H]]];
    destruct H as [E H]; rewrite E in *;
    repeat split; intros; try discriminate; try lia; auto.
Qed.

(** C2, as stated, fails: the level is not a function of the arguments of
    the call.  The same article list gives two levels at two readings of
    the wall clock. *)
Lemma assessCrisisLevel_reads_wall_clock :
  let articles := [sampleArticle "Border clash" "military" (-3) (Instant 0)] in
  fst (assessCrisisLevel articles (worldAt 0)) = Ok moderate
  /\ fst (assessCrisisLevel articles (worldAt (48 * msPerHour))) = Ok normal.
Proof. split; vm_compute; reflexivity. Qed.

Lemma levelFor_monotone (M D : nat) :
  rank (levelFor M D) <= rank (levelFor (S M) D).
Proof.
  destruct (levelFor_cases M D) as [H | [H | [H | H]]];
    destruct (levelFor_cases (S M) D) as [H' | [H' | [H' | H']]];
    destruct H as [-> H]; destruct H' as [-> H']; simpl; lia.
Qed.

Lemma length_filter_app {A} (p : A -> bool) (l : list A) (a : A) :
  List.length (filter p (l ++ [a])) =
  List.length (filter p l) + (if p a then 1 else 0).
Proof.
  rewrite filter_app, length_app. simpl. now destruct (p a).
Qed.

(** C8. Appending one article of the 48-hour window that is military with
    sentiment below -2 never lowers the crisis level. *)
Theorem assessCrisisLevel_monotone
  (articles : list Article) (a : Article) (w : World) :
  withinWindow (wallClock w) a = true ->
  category a = "military" ->
  (sentiment a < -2)%Z ->
  exists before after,
    assessCrisisLevel articles w = (Ok before, w)
    /\ assessCrisisLevel (articles ++ [a]) w = (Ok after, w)
    /\ rank before <= rank after.
Proof.
  intros Hw Hc Hs.
  exists (levelFor (negativeMilitary (wallClock w) articles)
                   (negativeDiplomatic (wallClock w) articles)),
         (levelFor (negativeMilitary (wallClock w) (articles ++ [a]))
                   (negativeDiplomatic (wallClock w) (articles ++ [a]))).
  split; [apply assessCrisisLevel_levelFor|].
  split; [apply assessCrisisLevel_levelFor|].
  unfold negativeMilitary, negativeDiplomatic.
  rewrite !length_filter_app, Hw, Hc.
  apply Z.ltb_lt in Hs. rewrite Hs. cbn [andb String.eqb Ascii.eqb Bool.eqb].
  rewrite Nat.add_0_r, Nat.add_1_r. apply levelFor_monotone.
Qed.

Lemma assessCrisisLevel_monotone_witness :
  exists before after,
    assessCrisisLevel [] (worldAt 1000) = (Ok before, worldAt 1000)
    /\ assessCrisisLevel
         ([] ++ [sampleArticle "Border clash" "military" (-3) (Instant 0)])
         (worldAt 1000) = (Ok after, worldAt 1000)
    /\ rank before <= rank after.
Proof.
  apply (assessCrisisLevel_monotone
           [] (sampleArticle "Border clash" "military" (-3) (Instant 0))
           (worldAt 1000)).
  - reflexivity.
  - reflexivity.
  - simpl. lia.
Defined.

(** ** Analytics aggregator *)

Lemma calculateAnalytics_returns (articles : list Article) (w : World) :
  articles <> [] ->
  calculateAnalytics articles w =
  (Ok (Some
         {| categories :=
              {| military := List.length (filter (hasCategory "military") articles);
                 diplomatic := List.length (filter (hasCategory "diplomatic") articles);
                 economic := List.length (filter (hasCategory "economic") articles);
                 social := List.length (filter (hasCategory "social") articles);
                 other := List.length (filter (hasCategory "other") articles) |};
            sentimentCounts :=
              {| positive := List.length (filter (fun a => 0 <? sentiment a)%Z articles);
                 neutral := List.length (filter (fun a => sentiment a =? 0)%Z articles);
                 negative := List.length (filter (fun a => sentiment a <? 0)%Z articles) |};
            trendingKeywords := trending articles;
            crisisLevel :=
              levelFor (negativeMilitary (wallClock w) articles)
                       (negativeDiplomatic (wallClock w) articles);
            significantEvents := map toEvent (filter isSignificant articles);
            lastUpdated := wallClock w |}), w).
Proof.
  intros Hne. destruct articles as [|a0 rest]; [congruence|].
  unfold calculateAnalytics, bind.
  rewrite assessCrisisLevel_levelFor. reflexivity.
Qed.

(** C5. On the empty article list [calculateAnalytics] returns no summary
    ([null]), which is not a summary of zero counts. *)
Theorem calculateAnalytics_empty (w : World) :
  calculateAnalytics [] w = (Ok None, w).
Proof. reflexivity. Qed.

(** Three tests of which every element passes exactly one split a list. *)
Lemma length_three_way {A} (p q r : A -> bool) (l : list A) :
  (forall a, In a l ->
             (if p a then 1 else 0) + (if q a then 1 else 0)
             + (if r a then 1 else 0) = 1) ->
  List.length (filter p l) + List.length (filter q l)
  + List.length (filter r l) = List.length l.
Proof.
  induction l as [|a l IH]; intros H; [reflexivity|].
  specialize (IH (fun b Hb => H b (or_intror Hb))).
  specialize (H a (or_introl eq_refl)). simpl.
  destruct (p a), (q a), (r a); simpl in *; lia.
Qed.

(** C6. For a non-empty article list the summary is returned, and its
    sentiment counts are the numbers of articles with score above 0, equal
    to 0 and below 0; they add up to the number of articles. *)
Theorem sentimentCounts_partition (articles : list Article) (w : World) :
  articles <> [] ->
  exists summary,
    calculateAnalytics articles w = (Ok (Some summary), w)
    /\ positive (sentimentCounts summary) =
       List.length (filter (fun a => 0 <? sentiment a)%Z articles)
    /\ neutral (sentimentCounts summary) =
       List.length (filter (fun a => sentiment a =? 0)%Z articles)
    /\ negative (sentimentCounts summary) =
       List.length (filter (fun a => sentiment a <? 0)%Z articles)
    /\ positive (sentimentCounts summary) + neutral (sentimentCounts summary)
       + negative (sentimentCounts summary) = List.length articles.
Proof.
  intros Hne. eexists. split; [apply calculateAnalytics_returns, Hne|].
  cbn [sentimentCounts positive neutral negative].
  repeat split. apply length_three_way. intros a _.
  destruct (Z.ltb_spec 0 (sentiment a)), (Z.eqb_spec (sentiment a) 0),
    (Z.ltb_spec (sentiment a) 0); simpl; lia.
Qed.

Lemma sentimentCounts_partition_witness :
  exists summary,
    calculateAnalytics
      [sampleArticle "Peace talks" "diplomatic" 2 (Instant 0);
       sampleArticle "Border clash" "military" (-3) (Instant 0)]
      (worldAt 1000) = (Ok (Some summary), worldAt 1000)
    /\ positive (sentimentCounts summary) = 1
    /\ neutral (sentimentCounts summary) = 0
    /\ negative (sentimentCounts summary) = 1
    /\ positive (sentimentCounts summary) + neutral (sentimentCounts summary)
       + negative (sentimentCounts summary) = 2.
Proof.
  apply (sentimentCounts_partition
           [sampleArticle "Peace talks" "diplomatic" 2 (Instant 0);
            sampleArticle "Border clash" "military" (-3) (Instant 0)]
           (worldAt 1000)).
  discriminate.
Defined.

Lemma length_five_way {A} (p1 p2 p3 p4 p5 : A -> bool) (l : list A) :
  (forall a, In a l ->
             (if p1 a then 1 else 0) + (if p2 a then 1 else 0)
             + (if p3 a then 1 else 0) + (if p4 a then 1 else 0)
             + (if p5 a then 1 else 0) = 1) ->
  List.length (filter p1 l) + List.length (filter p2 l)
  + List.length (filter p3 l) + List.length (filter p4 l)
  + List.length (filter p5 l) = List.length l.
Proof.
  induction l as [|a l IH]; intros H; [reflexivity|].
  specialize (IH (fun b Hb => H b (or_intror Hb))).
  specialize (H a (or_introl eq_refl)). simpl.
  destruct (p1 a), (p2 a), (p3 a), (p4 a), (p5 a); simpl in *; lia.
Qed.

(** C10. For a non-empty article list whose categories are among the five
    defined ones, the five category counts of the summary add up to the
    number of articles. *)
Theorem categoryCounts_total (articles : list Article) (w : World) :
  articles <> [] ->
  (forall a, In a articles ->
     In (category a) ["military"; "diplomatic"; "economic"; "social"; "other"]) ->
  exists summary,
    calculateAnalytics articles w = (Ok (Some summary), w)
    /\ military (categories summary) + diplomatic (categories summary)
       + economic (categories summary) + social (categories summary)
       + other (categories summary) = List.length articles.
Proof.
  intros Hne Hcat. eexists. split; [apply calculateAnalytics_returns, Hne|].
  cbn [categories military diplomatic economic social other].
  apply length_five_way. intros a Ha. unfold hasCategory.
  destruct (Hcat a Ha) as [E | [E | [E | [E | [E | []]]]]];
    rewrite <- E; reflexivity.
Qed.

Lemma categoryCounts_total_witness :
  exists summary,
    calculateAnalytics
      [sampleArticle "Peace talks" "diplomatic" 2 (Instant 0);
       sampleArticle "Border clash" "military" (-3) (Instant 0);
       sampleArticle "Weather" "other" 0 (Instant 0)]
      (worldAt 1000) = (Ok (Some summary), worldAt 1000)
    /\ military (categories summary) + diplomatic (categories summary)
       + economic (categories summary) + social (categories summary)
       + other (categories summary) = 3.
Proof.
  apply (categoryCounts_total
           [sampleArticle "Peace talks" "diplomatic" 2 (Instant 0);
            sampleArticle "Border clash" "military" (-3) (Instant 0);
            sampleArticle "Weather" "other" 0 (Instant 0)]
           (worldAt 1000)).
  - discriminate.
  - simpl. intros a [<- | [<- | [<- | []]]]; simpl; tauto.
Defined.

(** ** Trending keywords *)

Lemma own_assign (obj : counters) (key x : string) (v : nat) :
  own (assign obj key v) x = if String.eqb key x then Some v else own obj x.
Proof.
  induction obj as [|[k c] rest IH]; simpl.
  - destruct (String.eqb_spec key x); reflexivity.
  - destruct (String.eqb_spec k key) as [->|Hk]; simpl.
    + destruct (String.eqb_spec key x); reflexivity.
    + rewrite IH. destruct (String.eqb_spec k x) as [->|Hx]; [|reflexivity].
      destruct (String.eqb_spec key x); [congruence | reflexivity].
Qed.

Lemma own_None (obj : counters) (key : string) :
  own obj key = None <-> ~ In key (map fst obj).
Proof.
  induction obj as [|[k c] rest IH]; simpl; [tauto|].
  destruct (String.eqb_spec k key) as [->|Hk].
  - split; [discriminate | tauto].
  - rewrite IH. tauto.
Qed.

Lemma keys_assign (obj : counters) (key : string) (v : nat) :
  map fst (assign obj key v) =
  match own obj key with
  | Some _ => map fst obj
  | None => (map fst obj ++ [key])%list
  end.
Proof.
  induction obj as [|[k c] rest IH]; simpl; [reflexivity|].
  destruct (String.eqb_spec k key) as [->|Hk]; simpl; [reflexivity|].
  rewrite IH. now destruct (own rest key).
Qed.

Lemma occurrences_snoc (words : list string) (w x : string) :
  occurrences x (words ++ [w])%list =
  occurrences x words + (if String.eqb w x then 1 else 0).
Proof.
  unfold occurrences. rewrite count_occ_app. simpl.
  destruct (string_dec w x) as [->|H].
  - now rewrite String.eqb_refl.
  - apply String.eqb_neq in H. now rewrite H.
Qed.

Lemma firstIndex_lt (x : string) (words : list string) :
  In x words -> firstIndex x words < List.length words.
Proof.
  induction words as [|y rest IH]; simpl; [tauto|].
  intros [->|H].
  - rewrite String.eqb_refl. lia.
  - destruct (String.eqb y x); [lia|]. specialize (IH H). lia.
Qed.

Lemma firstIndex_snoc_old (x w : string) (words : list string) :
  In x words -> firstIndex x (words ++ [w])%list = firstIndex x words.
Proof.
  induction words as [|y rest IH]; simpl; [tauto|].
  intros H. destruct (String.eqb_spec y x) as [->|Hy]; [reflexivity|].
  f_equal. apply IH. destruct H; [congruence | assumption].
Qed.

Lemma firstIndex_snoc_new (w : string) (words : list string) :
  ~ In w words -> firstIndex w (words ++ [w])%list = List.length words.
Proof.
  induction words as [|y rest IH]; simpl; intros H.
  - now rewrite String.eqb_refl.
  - destruct (String.eqb_spec y w) as [->|Hy]; [tauto|].
    f_equal. apply IH. tauto.
Qed.

Lemma StronglySorted_weaken {A} (R R' : A -> A -> Prop) (l : list A) :
  (forall x y, In x l -> In y l -> R x y -> R' x y) ->
  StronglySorted R l -> StronglySorted R' l.
Proof.
  induction l as [|a l IH]; intros H HS; [constructor|].
  inversion HS as [|? ? HS' HF]; subst. constructor.
  - apply IH; [|assumption]. intros x y Hx Hy. apply H; now right.
  - rewrite Forall_forall in *. intros y Hy.
    apply H; [now left | now right | now apply HF].
Qed.

Lemma StronglySorted_snoc {A} (R : A -> A -> Prop) (l : list A) (z : A) :
  StronglySorted R l -> Forall (fun x => R x z) l ->
  StronglySorted R (l ++ [z])%list.
Proof.
  induction l as [|a l IH]; intros HS HF; simpl.
  - repeat constructor.
  - inversion HS as [|? ? HS' HF']; subst.
    inversion HF as [|? ? Ha HFl]; subst. constructor.
    + now apply IH.
    + apply Forall_app. split; [assumption | now constructor].
Qed.

Section Tally.

(** What the object of counts holds after the words [seen]: the count
    of every word met, in the order in which the words were first
    met. *)
Let counted (seen : list string) (keywords : counters) : Prop :=
  (forall x, own keywords x =
             match occurrences x seen with
             | 0 => None
             | S n => Some (S n)
             end)
  /\ StronglySorted (fun x y => firstIndex x seen < firstIndex y seen)
                    (map fst keywords).

Lemma counted_key_seen (seen : list string) (keywords : counters) (x : string) :
  counted seen keywords -> In x (map fst keywords) -> In x seen.
Proof.
  intros [HA _] Hx.
  destruct (own keywords x) eqn:E.
  - rewrite HA in E. apply (count_occ_In string_dec).
    fold (occurrences x seen). destruct (occurrences x seen); [discriminate | lia].
  - apply own_None in E. contradiction.
Qed.

Lemma counted_step (seen : list string) (keywords : counters) (w : string) :
  counted seen keywords ->
  counted (seen ++ [w])%list
          (assign keywords w
                  (match own keywords w with Some n => n + 1 | None => 1 end)).
Proof.
  intros H. pose proof H as [HA HS]. split.
  - intros x. rewrite own_assign, occurrences_snoc.
    destruct (String.eqb_spec w x) as [->|Hx].
    + rewrite HA. destruct (occurrences x seen); simpl.
      * reflexivity.
      * reflexivity.
    + rewrite Nat.add_0_r. apply HA.
  - rewrite keys_assign. destruct (own keywords w) eqn:E.
    + eapply StronglySorted_weaken; [|exact HS].
      intros x y Hx Hy Hlt. cbv beta.
      rewrite !firstIndex_snoc_old; eauto using counted_key_seen.
    + assert (Hw : ~ In w seen).
      { rewrite HA in E. intros Hin.
        apply (count_occ_In string_dec) in Hin. fold (occurrences w seen) in Hin.
        destruct (occurrences w seen); [lia | discriminate]. }
      apply StronglySorted_snoc.
      * eapply StronglySorted_weaken; [|exact HS].
        intros x y Hx Hy Hlt. cbv beta.
        rewrite !firstIndex_snoc_old; eauto using counted_key_seen.
      * apply Forall_forall. intros x Hx.
        rewrite firstIndex_snoc_new by assumption.
        rewrite firstIndex_snoc_old by eauto using counted_key_seen.
        apply firstIndex_lt; eauto using counted_key_seen.
Qed.

Lemma counted_tally (words seen : list string) (keywords : counters) :
  counted seen keywords -> counted (seen ++ words)%list (tally words keywords).
Proof.
  revert seen keywords. induction words as [|w words IH]; intros seen keywords H.
  - now rewrite app_nil_r.
  - change (w :: words) with ([w] ++ words)%list. rewrite app_assoc.
    apply IH. now apply counted_step.
Qed.

(** The counts of a list of words, from the empty object. *)
Lemma tally_counts (words : list string) :
  (forall x, own (tally words []) x =
             match occurrences x words with
             | 0 => None
             | S n => Some (S n)
             end)
  /\ StronglySorted (fun x y => firstIndex x words < firstIndex y words)
                    (map fst (tally words [])).
Proof.
  apply (counted_tally words [] []). split.
  - intros x. reflexivity.
  - constructor.
Qed.

End Tally.

Lemma countWords_tally (words : list string) (keywords : counters) :
  (forall x, In x words -> x <> "constructor" /\ x <> "__proto__") ->
  fold_left
    (fun acc word =>
       match acc with
       | Some keywords => increment keywords word
       | None => None
       end)
    words (Some keywords) = Some (tally words keywords).
Proof.
  revert keywords. induction words as [|w words IH]; intros keywords H.
  - reflexivity.
  - cbn [fold_left tally].
    assert (E : increment keywords w =
                Some (assign keywords w
                        (match own keywords w with Some n => n + 1 | None => 1 end))).
    { unfold increment. destruct (own keywords w); [reflexivity|].
      destruct (H w (or_introl eq_refl)) as [Hc Hp].
      apply String.eqb_neq in Hc, Hp. now rewrite Hc, Hp. }
    rewrite E. apply IH. intros x Hx. apply H. now right.
Qed.

Lemma countWords_numbers (words : list string) :
  (forall x, In x words -> x <> "constructor" /\ x <> "__proto__") ->
  countWords words = Some (tally words []).
Proof. apply countWords_tally. Qed.

Lemma insertByCount_perm (e : string * nat) (sorted : counters) :
  Permutation (insertByCount e sorted) (e :: sorted).
Proof.
  induction sorted as [|e' rest IH]; simpl; [reflexivity|].
  destruct (snd e <? snd e')%nat; [|reflexivity].
  rewrite IH. apply perm_swap.
Qed.

Lemma sortByCount_perm (entries : counters) :
  Permutation (sortByCount entries) entries.
Proof.
  induction entries as [|e rest IH]; simpl; [reflexivity|].
  rewrite insertByCount_perm. now constructor.
Qed.

Section StableSort.

(** The order in which the entries stand before sorting. *)
Variable before : string * nat -> string * nat -> Prop.

Let sortedBefore (a b : string * nat) : Prop :=
  snd b < snd a \/ (snd a = snd b /\ before a b).

Lemma insertByCount_sorted (e : string * nat) (sorted : counters) :
  StronglySorted sortedBefore sorted ->
  Forall (before e) sorted ->
  StronglySorted sortedBefore (insertByCount e sorted).
Proof.
  induction sorted as [|e' rest IH]; intros HS HF; simpl.
  - repeat constructor.
  - inversion HS as [|? ? HS' HF']; subst.
    inversion HF as [|? ? He HFr]; subst.
    destruct (Nat.ltb_spec (snd e) (snd e')) as [Hlt | Hge].
    + constructor; [now apply IH|].
      rewrite Forall_forall in *. intros z Hz.
      apply (Permutation_in _ (insertByCount_perm e rest)) in Hz.
      destruct Hz as [<- | Hz]; [now left | now apply HF'].
    + constructor; [assumption|].
      rewrite Forall_forall in *. intros z [<- | Hz].
      * destruct (Nat.eq_dec (snd e) (snd e')); [right; tauto | left; lia].
      * assert (Hz' : snd z <= snd e').
        { destruct (HF' z Hz) as [H | [H _]]; lia. }
        destruct (Nat.eq_dec (snd e) (snd z)) as [E | E].
        -- right. split; [assumption | now apply HFr].
        -- left. lia.
Qed.

Lemma sortByCount_sorted (entries : counters) :
  StronglySorted before entries ->
  StronglySorted sortedBefore (sortByCount entries).
Proof.
  induction entries as [|e rest IH]; intros HS; simpl; [constructor|].
  inversion HS as [|? ? HS' HF]; subst.
  apply insertByCount_sorted; [now apply IH|].
  rewrite Forall_forall in *. intros z Hz. apply HF.
  now apply (Permutation_in _ (sortByCount_perm rest)).
Qed.

End StableSort.

Lemma StronglySorted_firstn {A} (R : A -> A -> Prop) (n : nat) (l : list A) :
  StronglySorted R l -> StronglySorted R (firstn n l).
Proof.
  revert l. induction n as [|n IH]; intros l HS; [constructor|].
  destruct l as [|a l]; [constructor|].
  inversion HS as [|? ? HS' HF]; subst. simpl. constructor; [now apply IH|].
  rewrite Forall_forall in *. intros z Hz. apply HF.
  rewrite <- (firstn_skipn n l). apply in_or_app. now left.
Qed.

Lemma StronglySorted_map {A B} (f : A -> B) (R : B -> B -> Prop) (l : list A) :
  StronglySorted (fun a b => R (f a) (f b)) l -> StronglySorted R (map f l).
Proof.
  induction 1 as [|a l HS IH HF]; simpl; constructor; [assumption|].
  now apply Forall_map.
Qed.

Lemma StronglySorted_map_inv {A B} (f : A -> B) (R : B -> B -> Prop) (l : list A) :
  StronglySorted R (map f l) -> StronglySorted (fun a b => R (f a) (f b)) l.
Proof.
  induction l as [|a l IH]; simpl; intros HS; [constructor|].
  inversion HS as [|? ? HS' HF]; subst. constructor; [now apply IH|].
  rewrite Forall_forall in *. intros z Hz. apply HF. now apply in_map.
Qed.

Lemma StronglySorted_NoDup {A} (R : A -> A -> Prop) (l : list A) :
  (forall x, ~ R x x) -> StronglySorted R l -> NoDup l.
Proof.
  intros Hirr. induction 1 as [|a l HS IH HF]; constructor; [|assumption].
  intros Hin. rewrite Forall_forall in HF. exact (Hirr a (HF a Hin)).
Qed.

Lemma own_In (obj : counters) (x : string) (c : nat) :
  NoDup (map fst obj) -> In (x, c) obj -> own obj x = Some c.
Proof.
  induction obj as [|[k v] rest IH]; simpl; intros HN Hin; [tauto|].
  inversion HN as [|? ? Hk HN']; subst.
  destruct Hin as [E | Hin].
  - injection E as -> ->. now rewrite String.eqb_refl.
  - destruct (String.eqb_spec k x) as [->|Hx].
    + exfalso. apply Hk. apply (in_map fst) in Hin. exact Hin.
    + now apply IH.
Qed.

Lemma wordsOf_spec (a : Article) (x : string) :
  In x (wordsOf a) <->
  In x (Js.splitSpaces
          (Js.toLowerCase (toString (title (raw a)) ++ " "
                           ++ toString (description (raw a)))))
  /\ 3 < String.length x
  /\ ~ In x excludedWords
  /\ Js.isNumeric x = false.
Proof.
  unfold wordsOf, keepWord. rewrite filter_In, !andb_true_iff, !negb_true_iff.
  rewrite Nat.ltb_lt.
  assert (E : existsb (String.eqb x) excludedWords = false <-> ~ In x excludedWords).
  { rewrite <- not_true_iff_false, existsb_exists. split.
    - intros H Hin. apply H. exists x. split; [assumption | apply String.eqb_refl].
    - intros H [y [Hin Hy]]. apply String.eqb_eq in Hy. subst y. contradiction. }
  rewrite E. tauto.
Qed.

(** C7, amended.  For a non-empty article list in which no word is
    [constructor] or [__proto__], the summary is returned and its trending
    keywords are the first 10 of a ranking of the words of all articles: the
    words are the white-space separated pieces of the lower-cased title, a
    space and the description, longer than 3, not excluded and not purely
    numeric; every such word stands once in the ranking, with the number
    of its occurrences; a higher count comes first, and on equal counts the
    word met first.  So the trending keywords are at most 10 and their
    counts never increase (they need not decrease). *)
Theorem trendingKeywords_ranking (articles : list Article) (w : World) :
  articles <> [] ->
  (forall x, In x (flat_map wordsOf articles) ->
             x <> "constructor" /\ x <> "__proto__") ->
  let words := flat_map wordsOf articles in
  exists summary ranking,
    calculateAnalytics articles w = (Ok (Some summary), w)
    /\ (forall a x,
          In x (wordsOf a) <->
          In x (Js.splitSpaces
                  (Js.toLowerCase (toString (title (raw a)) ++ " "
                                   ++ toString (description (raw a)))))
          /\ 3 < String.length x
          /\ ~ In x excludedWords
          /\ Js.isNumeric x = false)
    /\ NoDup (map word ranking)
    /\ (forall x, In x (map word ranking) <-> In x words)
    /\ (forall k, In k ranking -> count k = occurrences (word k) words)
    /\ StronglySorted (ranksBefore words) ranking
    /\ trendingKeywords summary = Some (firstn 10 ranking)
    /\ List.length (firstn 10 ranking) <= 10
    /\ StronglySorted (fun a b => count b <= count a) (firstn 10 ranking).
Proof.
  intros Hne Hnames words.
  set (toKeyword := fun '(x, c) => {| word := x; count := c |}).
  set (table := tally words []).
  eexists. exists (map toKeyword (sortByCount table)).
  split; [now apply calculateAnalytics_returns|].
  destruct (tally_counts words) as [Hown Hkeys]. fold table in Hown, Hkeys.
  assert (Hnodup : NoDup (map fst table)).
  { apply (StronglySorted_NoDup
             (fun x y => firstIndex x words < firstIndex y words));
      [intros x; apply Nat.lt_irrefl | exact Hkeys]. }
  assert (Hperm : Permutation (sortByCount table) table)
    by apply sortByCount_perm.
  assert (Hword : forall l, map word (map toKeyword l) = map fst l).
  { intros l. rewrite map_map. apply map_ext. now intros [x c]. }
  assert (Hsorted : StronglySorted (ranksBefore words)
                                   (map toKeyword (sortByCount table))).
  { apply StronglySorted_map.
    apply (StronglySorted_weaken
             (fun a b => snd b < snd a
                         \/ (snd a = snd b
                             /\ firstIndex (fst a) words < firstIndex (fst b) words))).
    - intros [x c] [y d] _ _ H. exact H.
    - apply (sortByCount_sorted
               (fun a b => firstIndex (fst a) words < firstIndex (fst b) words)).
      apply (StronglySorted_map_inv
               fst (fun x y => firstIndex x words < firstIndex y words)).
      exact Hkeys. }
  split; [apply wordsOf_spec|].
  split; [rewrite Hword; now rewrite Hperm|].
  split.
  { intros x. rewrite Hword, Hperm.
    rewrite (count_occ_In string_dec words x). fold (occurrences x words).
    specialize (Hown x). pose proof (own_None table x) as HN.
    destruct (own table x), (occurrences x words); try discriminate.
    - split; [lia|]. intros _.
      destruct (in_dec string_dec x (map fst table)); [assumption|].
      apply HN in n1. discriminate.
    - split; [|lia]. intros Hin. exfalso. now apply HN. }
  split.
  { intros k Hk. apply in_map_iff in Hk. destruct Hk as [[x c] [<- Hin]].
    apply (Permutation_in _ Hperm) in Hin. simpl.
    apply (own_In _ _ _ Hnodup) in Hin. rewrite Hown in Hin.
    destruct (occurrences x words); [discriminate | now injection Hin]. }
  split; [exact Hsorted|].
  split.
  { cbn [trendingKeywords]. unfold trending.
    rewrite (countWords_numbers (flat_map wordsOf articles) Hnames).
    now rewrite firstn_map. }
  split; [apply firstn_le_length|].
  apply StronglySorted_firstn.
  eapply StronglySorted_weaken; [|exact Hsorted].
  intros a b _ _ [H | [H _]]; lia.
Qed.

Lemma trendingKeywords_ranking_witness :
  let words := flat_map wordsOf sampleFeed in
  exists summary ranking,
    calculateAnalytics sampleFeed (worldAt 1000) = (Ok (Some summary), worldAt 1000)
    /\ (forall a x,
          In x (wordsOf a) <->
          In x (Js.splitSpaces
                  (Js.toLowerCase (toString (title (raw a)) ++ " "
                                   ++ toString (description (raw a)))))
          /\ 3 < String.length x
          /\ ~ In x excludedWords
          /\ Js.isNumeric x = false)
    /\ NoDup (map word ranking)
    /\ (forall x, In x (map word ranking) <-> In x words)
    /\ (forall k, In k ranking -> count k = occurrences (word k) words)
    /\ StronglySorted (ranksBefore words) ranking
    /\ trendingKeywords summary = Some (firstn 10 ranking)
    /\ List.length (firstn 10 ranking) <= 10
    /\ StronglySorted (fun a b => count b <= count a) (firstn 10 ranking).
Proof.
  apply (trendingKeywords_ranking sampleFeed (worldAt 1000)).
  - discriminate.
  - vm_compute. intros x H.
    repeat (destruct H as [<- | H]; [split; discriminate|]). destruct H.
Defined.

(** C7, as stated, fails: the counts of the trending keywords are not
    strictly descending.  Words that occur equally often stand next to
    each other, in the order in which they were first met. *)
Lemma trendingKeywords_not_strictly_descending :
  exists summary top,
    calculateAnalytics sampleFeed (worldAt 1000) = (Ok (Some summary), worldAt 1000)
    /\ trendingKeywords summary = Some top
    /\ top = [ {| word := "pakistan"; count := 2 |};
               {| word := "talks"; count := 2 |};
               {| word := "india"; count := 1 |};
               {| word := "resume"; count := 1 |};
               {| word := "border"; count := 1 |} ]
    /\ ~ StronglySorted (fun a b => count b < count a) top.
Proof.
  eexists. eexists. split; [vm_compute; reflexivity|].
  split; [vm_compute; reflexivity|]. split; [reflexivity|].
  intros H. inversion H as [|? ? _ HF]; subst.
  inversion HF as [|? ? Hlt _]; subst. simpl in Hlt. lia.
Qed.

(** ** Request handler and response cache *)

Lemma calculateAnalytics_total (articles : list Article) (w : World) :
  exists summary, calculateAnalytics articles w = (Ok summary, w).
Proof.
  destruct articles as [|a rest].
  - now exists None.
  - eexists. apply calculateAnalytics_returns. discriminate.
Qed.

Lemma freshEntry_Some (cache : Cache) (now : Z) (d : Response) :
  freshEntry cache now = Some d <->
  exists t, cache = {| data := Some d; lastFetched := Some t |}
            /\ (now - t < ttl)%Z.
Proof.
  unfold freshEntry. destruct cache as [[d'|] [t|]]; simpl.
  - destruct (Z.ltb_spec (now - t) ttl) as [H | H]; split.
    + intros E. injection E as ->. now exists t.
    + intros [t' [E H']]. injection E as E _. now rewrite E.
    + discriminate.
    + intros [t' [E H']]. injection E as _ E. subst t'. lia.
  - split; [discriminate | intros [t' [E _]]; discriminate].
  - split; [discriminate | intros [t' [E _]]; discriminate].
  - split; [discriminate | intros [t' [E _]]; discriminate].
Qed.

(** Runs the handler up to the test of the cache. *)
Ltac run_handler :=
  unfold apiNews, tryCatch, bind, currentTime, readCache, getenv, fetchJson,
    writeCache;
  cbv beta iota.

Section ServerProperties.

Variable analyze : string -> Sentiment.Analysis.

(** A fresh entry is served as it is; the process, the number of requests
    to the provider included, stays as it was. *)
Lemma apiNews_cached (upstream : Upstream) (w : World) (d : Response) :
  freshEntry (newsCache w) (wallClock w) = Some d ->
  apiNews analyze upstream w = (Ok (Json d), w).
Proof.
  intros H. run_handler. now rewrite H.
Qed.

(** Without a fresh entry, a failing refresh is answered by an error and
    leaves the cache as it was. *)
Lemma apiNews_failed_refresh (upstream : Upstream) (w : World) :
  freshEntry (newsCache w) (wallClock w) = None ->
  refreshFails upstream ->
  exists error details w',
    apiNews analyze upstream w = (Ok (ServerError error details), w')
    /\ newsCache w' = newsCache w.
Proof.
  intros H Hfail. run_handler. rewrite H. cbv beta iota.
  destruct (missingKey (GNEWS_API_KEY w)).
  - now eexists _, _, _.
  - unfold refreshFails in Hfail.
    destruct (result upstream) as [message | [rawArticles|]].
    + now eexists _, _, _.
    + contradiction.
    + now eexists _, _, _.
Qed.

(** A reply with articles leaves them in the cache with the time at which
    they were fetched, within the time to live. *)
Lemma apiNews_json_cached (upstream : Upstream) (w w1 : World) (r : Response) :
  apiNews analyze upstream w = (Ok (Json r), w1) ->
  exists t, newsCache w1 = {| data := Some r; lastFetched := Some t |}
            /\ (wallClock w - t < ttl)%Z.
Proof.
  destruct (freshEntry (newsCache w) (wallClock w)) as [d|] eqn:H.
  - rewrite (apiNews_cached upstream w d H). intros E. injection E as <- <-.
    now apply freshEntry_Some.
  - run_handler. rewrite H. cbv beta iota.
    destruct (missingKey (GNEWS_API_KEY w)); [discriminate|].
    destruct (result upstream) as [message | [rawArticles|]];
      [discriminate | | discriminate].
    match goal with
    | |- context [calculateAnalytics ?l ?w'] =>
        destruct (calculateAnalytics_total l w') as [summary ->]
    end.
    cbv beta iota. unfold ret. intros E. injection E as <- <-.
    exists (wallClock w). split; [reflexivity|]. unfold ttl. lia.
Qed.

(** C1. A stored entry younger than the time to live is returned and the
    provider is not asked.  Without such an entry, when the refresh fails
    (the fetch throws or the body has no article list), the caller gets an
    error and the stored entry, data and time, stays as it was.  After a
    call that returned articles, a later call within the time to live
    returns the same articles, whatever the provider would answer. *)
Theorem newsCache_served_and_kept (upstream : Upstream) (w : World) :
  (forall d t,
      newsCache w = {| data := Some d; lastFetched := Some t |} ->
      (wallClock w - t < ttl)%Z ->
      apiNews analyze upstream w = (Ok (Json d), w))
  /\ (freshEntry (newsCache w) (wallClock w) = None ->
      refreshFails upstream ->
      exists error details w',
        apiNews analyze upstream w = (Ok (ServerError error details), w')
        /\ newsCache w' = newsCache w)
  /\ (forall r w1,
      apiNews analyze upstream w = (Ok (Json r), w1) ->
      exists t,
        newsCache w1 = {| data := Some r; lastFetched := Some t |}
        /\ forall failing w2,
             refreshFails failing ->
             newsCache w2 = newsCache w1 ->
             (wallClock w2 - t < ttl)%Z ->
             apiNews analyze failing w2 = (Ok (Json r), w2)).
Proof.
  split; [|split].
  - intros d t Hc Ht. apply apiNews_cached. apply freshEntry_Some. now exists t.
  - apply apiNews_failed_refresh.
  - intros r w1 H. destruct (apiNews_json_cached _ _ _ _ H) as [t [Hc _]].
    exists t. split; [assumption|].
    intros failing w2 _ Hc2 Ht. apply apiNews_cached. apply freshEntry_Some.
    exists t. split; [congruence | assumption].
Qed.

(** ** Article annotator *)

(** One annotated article for each article of the provider, in the same
    order, each holding the article it was made from. *)
Lemma processedArticles_one_each (rawArticles : list RawArticle) :
  List.length (map (processArticle analyze) rawArticles) = List.length rawArticles
  /\ map raw (map (processArticle analyze) rawArticles) = rawArticles.
Proof.
  split; [apply length_map|].
  rewrite map_map. simpl. apply map_id.
Qed.

(** The labels are computed on the title, a space and the description,
    and an absent or empty description counts as the empty string. *)
Lemma processArticle_text (article : RawArticle) :
  let text := textToAnalyze article in
  category (processArticle analyze article) = categorizeArticle text
  /\ sentiment (processArticle analyze article) = Sentiment.score (analyze text)
  /\ isPriority (processArticle analyze article) =
     isPriorityArticle text (categorizeArticle text) (Sentiment.score (analyze text))
  /\ (description article = Undefined \/ description article = Null ->
      text = toString (title article) ++ " ").
Proof.
  repeat split. intros [H | H]; unfold textToAnalyze; now rewrite H.
Qed.

(** C9 fails on an article without a title: the description is replaced
    by the empty string when it is absent, the title is not.  The text
    that is analyzed starts with the word [undefined], and the annotated
    article still has no title. *)
Theorem processArticle_missing_title :
  let article :=
    sampleRaw Undefined (Text "troops attack near border") (Instant 0) in
  textToAnalyze article = "undefined troops attack near border"
  /\ textToAnalyze article <> " troops attack near border"
  /\ sentiment (processArticle analyze article) =
     Sentiment.score (analyze "undefined troops attack near border")
  /\ title (raw (processArticle analyze article)) = Undefined.
Proof.
  repeat split. discriminate.
Qed.

End ServerProperties.

Lemma newsCache_served_and_kept_witness :
  exists r w1,
    apiNews sampleAnalyze providerUp (worldAt 0) = (Ok (Json r), w1)
    /\ fetches w1 = 1
    /\ apiNews sampleAnalyze providerDown (later 600000 w1) =
       (Ok (Json r), later 600000 w1)
    /\ exists error details w3,
         apiNews sampleAnalyze providerDown (later 900000 w1) =
         (Ok (ServerError error details), w3)
         /\ newsCache w3 = newsCache w1.
Proof.
  destruct (apiNews sampleAnalyze providerUp (worldAt 0)) as [reply w1] eqn:E.
  vm_compute in E. injection E as <- <-.
  eexists _, _. split; [reflexivity|]. split; [reflexivity|].
  split.
  - apply (proj1 (newsCache_served_and_kept
                    sampleAnalyze providerDown (later 600000 _)) _ 0%Z).
    + reflexivity.
    + reflexivity.
  - match goal with
    | |- context [later 900000 ?w1] =>
        destruct (proj1 (proj2 (newsCache_served_and_kept
                                  sampleAnalyze providerDown (later 900000 w1)))
                        eq_refl I)
          as [error [details [w3 [H1 H2]]]]
    end.
    exists error, details, w3. split; [exact H1 | exact H2].
Defined.

(** ** Scenarios *)

Example scenario_troops_attack :
  categorizeArticle "troops attack near border" = "military"
  /\ isPriorityArticle "troops attack near border" "military" (-4) = true.
Proof. split; vm_compute; reflexivity. Qed.

Example scenario_tie_goes_to_first_category :
  hits "military" "Army talks" = 1
  /\ hits "diplomatic" "Army talks" = 1
  /\ categorizeArticle "Army talks" = "military".
Proof. repeat split; vm_compute; reflexivity. Qed.

Example scenario_matches_do_not_overlap :
  Js.matchCount "warwar warship" "war" = 3
  /\ Js.matchCount "aaaa" "aa" = 2.
Proof. split; vm_compute; reflexivity. Qed.

Example scenario_split :
  Js.splitSpaces " India  and Pakistan " = [""; "India"; "and"; "Pakistan"; ""].
Proof. vm_compute. reflexivity. Qed.

Example scenario_six_military :
  let a := sampleArticle "Border clash" "military" (-3) (Instant 0) in
  fst (assessCrisisLevel [a; a; a; a; a; a] (worldAt 1000)) = Ok severe.
Proof. vm_compute. reflexivity. Qed.

Example scenario_nothing_recent :
  let a := sampleArticle "Border clash" "military" (-3) (Instant 0) in
  fst (assessCrisisLevel [a; a; a; a; a; a] (worldAt (48 * msPerHour)))
  = Ok normal.
Proof. vm_compute. reflexivity. Qed.

(** An article dated after the reading of the clock is in the window. *)
Example scenario_dated_ahead :
  let a := sampleArticle "Border clash" "military" (-3) (Instant 5000) in
  fst (assessCrisisLevel [a] (worldAt 1000)) = Ok moderate.
Proof. vm_compute. reflexivity. Qed.

(** An absent description is read as the word [null] by the keyword
    count. *)
Example scenario_null_keyword :
  trending
    [ {| raw := sampleRaw (Text "Ceasefire holds") Null (Instant 0);
         urlToImage := Undefined;
         sentiment := 0;
         sentimentDetail := sampleAnalyze "Ceasefire holds ";
         category := "military";
         isPriority := false |} ]
  = Some [ {| word := "ceasefire"; count := 1 |};
           {| word := "holds"; count := 1 |};
           {| word := "null"; count := 1 |} ].
Proof. vm_compute. reflexivity. Qed.

Example scenario_constructor :
  countWords ["tunnel"; "constructor"; "tunnel"] = None
  /\ countWords ["tunnel"; "__proto__"; "tunnel"] = Some [("tunnel", 2)].
Proof. split; vm_compute; reflexivity. Qed.

(** * Further properties *)

(** ** Crisis level: what moves it and what does not *)

Lemma levelFor_monotone_both (M D M' D' : nat) :
  M <= M' -> D <= D' -> rank (levelFor M D) <= rank (levelFor M' D').
Proof.
  intros HM HD.
  destruct (levelFor_cases M D) as [H | [H | [H | H]]];
    destruct (levelFor_cases M' D') as [H' | [H' | [H' | H']]];
    destruct H as [-> H]; destruct H' as [-> H']; simpl; lia.
Qed.

Lemma length_filter_le {A} (p q : A -> bool) (l : list A) :
  (forall a, In a l -> p a = true -> q a = true) ->
  List.length (filter p l) <= List.length (filter q l).
Proof.
  induction l as [|a l IH]; intros H; [reflexivity|].
  specialize (IH (fun b Hb => H b (or_intror Hb))).
  specialize (H a (or_introl eq_refl)). simpl.
  destruct (p a) eqn:Hp.
  - rewrite (H eq_refl). simpl. lia.
  - destruct (q a); simpl; lia.
Qed.

Lemma length_filter_perm {A} (p : A -> bool) (l l' : list A) :
  Permutation l l' -> List.length (filter p l) = List.length (filter p l').
Proof.
  induction 1 as [|a l l' HP IH | a b l | l l' l'' HP1 IH1 HP2 IH2]; simpl.
  - reflexivity.
  - destruct (p a); simpl; now rewrite IH.
  - destruct (p a), (p b); reflexivity.
  - congruence.
Qed.

Lemma negatives_le_length (now : Z) (articles : list Article) :
  negativeMilitary now articles + negativeDiplomatic now articles
  <= List.length articles.
Proof.
  unfold negativeMilitary, negativeDiplomatic.
  induction articles as [|a l IH]; [reflexivity|]. simpl.
  destruct (withinWindow now a), (sentiment a <? -2)%Z;
    rewrite ?andb_false_r; simpl; try lia.
  destruct (String.eqb_spec (category a) "military") as [E | E]; simpl.
  - rewrite E. simpl. lia.
  - destruct (String.eqb (category a) "diplomatic"); simpl; lia.
Qed.

(** X1. Appending an article, whatever it is, never lowers the crisis
    level. *)
Theorem assessCrisisLevel_append_never_lowers
  (articles : list Article) (a : Article) (w : World) :
  exists before after,
    assessCrisisLevel articles w = (Ok before, w)
    /\ assessCrisisLevel (articles ++ [a]) w = (Ok after, w)
    /\ rank before <= rank after.
Proof.
  eexists _, _. split; [apply assessCrisisLevel_levelFor|].
  split; [apply assessCrisisLevel_levelFor|].
  apply levelFor_monotone_both; unfold negativeMilitary, negativeDiplomatic;
    rewrite length_filter_app; lia.
Qed.

(** X2. An article that is outside the 48-hour window, or neither military
    nor diplomatic, or whose sentiment is -2 or more, leaves the level as
    it was when it is appended. *)
Theorem assessCrisisLevel_ignores_other_articles
  (articles : list Article) (a : Article) (w : World) :
  ~ (withinWindow (wallClock w) a = true
     /\ (category a = "military" \/ category a = "diplomatic")
     /\ (sentiment a < -2)%Z) ->
  assessCrisisLevel (articles ++ [a]) w = assessCrisisLevel articles w.
Proof.
  intros H. rewrite !assessCrisisLevel_levelFor.
  unfold negativeMilitary, negativeDiplomatic. rewrite !length_filter_app.
  destruct (withinWindow (wallClock w) a); simpl; [|now rewrite !Nat.add_0_r].
  destruct (Z.ltb_spec (sentiment a) (-2));
    rewrite ?andb_false_r, ?andb_true_r; [|now rewrite !Nat.add_0_r].
  destruct (String.eqb_spec (category a) "military");
    destruct (String.eqb_spec (category a) "diplomatic");
    try (exfalso; apply H; tauto).
  now rewrite !Nat.add_0_r.
Qed.

Lemma assessCrisisLevel_ignores_other_articles_witness :
  assessCrisisLevel
    ([sampleArticle "Border clash" "military" (-3) (Instant 0)]
     ++ [sampleArticle "Markets fall" "economic" (-5) (Instant 0)])
    (worldAt 1000)
  = assessCrisisLevel
      [sampleArticle "Border clash" "military" (-3) (Instant 0)]
      (worldAt 1000).
Proof.
  apply (assessCrisisLevel_ignores_other_articles
           [sampleArticle "Border clash" "military" (-3) (Instant 0)]
           (sampleArticle "Markets fall" "economic" (-5) (Instant 0))
           (worldAt 1000)).
  simpl. intros [_ [[H | H] _]]; discriminate H.
Defined.

(** X3. The crisis level does not depend on the order of the articles. *)
Theorem assessCrisisLevel_order_irrelevant
  (articles articles' : list Article) (w : World) :
  Permutation articles articles' ->
  assessCrisisLevel articles w = assessCrisisLevel articles' w.
Proof.
  intros H. rewrite !assessCrisisLevel_levelFor.
  unfold negativeMilitary, negativeDiplomatic.
  now rewrite !(length_filter_perm _ _ _ H).
Qed.

Lemma assessCrisisLevel_order_irrelevant_witness :
  assessCrisisLevel
    [sampleArticle "Border clash" "military" (-3) (Instant 0);
     sampleArticle "Talks fail" "diplomatic" (-4) (Instant 0)]
    (worldAt 1000)
  = assessCrisisLevel
      [sampleArticle "Talks fail" "diplomatic" (-4) (Instant 0);
       sampleArticle "Border clash" "military" (-3) (Instant 0)]
      (worldAt 1000).
Proof.
  apply assessCrisisLevel_order_irrelevant. apply perm_swap.
Defined.

(** X4. A level needs enough articles: severe is returned only for 5
    articles or more, elevated only for 3 or more, moderate only for a
    non-empty list. *)
Theorem assessCrisisLevel_needs_articles (articles : list Article) (w : World) :
  exists level,
    assessCrisisLevel articles w = (Ok level, w)
    /\ (level = severe -> 5 <= List.length articles)
    /\ (level = elevated -> 3 <= List.length articles)
    /\ (level = moderate -> 1 <= List.length articles).
Proof.
  eexists. split; [apply assessCrisisLevel_levelFor|].
  pose proof (negatives_le_length (wallClock w) articles) as Hle.
  destruct (levelFor_cases (negativeMilitary (wallClock w) articles)
                           (negativeDiplomatic (wallClock w) articles))
    as [H | [H | [H | H]]];
    destruct H as [-> H]; repeat split; intros E; try discriminate E; lia.
Qed.

(** X5. With the same articles the level never rises as time passes: an
    article that is in the window later is in the window now. *)
Theorem assessCrisisLevel_falls_with_time
  (articles : list Article) (w : World) (dt : Z) :
  (0 <= dt)%Z ->
  exists now_level later_level,
    assessCrisisLevel articles w = (Ok now_level, w)
    /\ assessCrisisLevel articles (later dt w) = (Ok later_level, later dt w)
    /\ rank later_level <= rank now_level.
Proof.
  intros Hdt. eexists _, _. split; [apply assessCrisisLevel_levelFor|].
  split; [apply assessCrisisLevel_levelFor|].
  assert (Hwin : forall a, withinWindow (wallClock (later dt w)) a = true ->
                           withinWindow (wallClock w) a = true).
  { intros a. unfold withinWindow, later. cbn [wallClock].
    destruct (publishedAt (raw a)); try tauto.
    rewrite !Z.ltb_lt. lia. }
  apply levelFor_monotone_both; unfold negativeMilitary, negativeDiplomatic;
    apply length_filter_le; intros a _;
    rewrite !andb_true_iff; intros [[H1 H2] H3]; auto.
Qed.

Lemma assessCrisisLevel_falls_with_time_witness :
  exists now_level later_level,
    assessCrisisLevel
      [sampleArticle "Border clash" "military" (-3) (Instant 0)] (worldAt 1000)
    = (Ok now_level, worldAt 1000)
    /\ assessCrisisLevel
         [sampleArticle "Border clash" "military" (-3) (Instant 0)]
         (later (48 * msPerHour) (worldAt 1000))
       = (Ok later_level, later (48 * msPerHour) (worldAt 1000))
    /\ rank later_level <= rank now_level.
Proof.
  apply (assessCrisisLevel_falls_with_time
           [sampleArticle "Border clash" "military" (-3) (Instant 0)]
           (worldAt 1000) (48 * msPerHour)).
  unfold msPerHour. lia.
Defined.

(** ** Priority classifier and categorizer: further properties *)

(** X6. A priority article stays a priority article when its sentiment is
    lower. *)
Theorem isPriorityArticle_lower_sentiment
  (text category : string) (sentiment sentiment' : Z) :
  isPriorityArticle text category sentiment = true ->
  (sentiment' <= sentiment)%Z ->
  isPriorityArticle text category sentiment' = true.
Proof.
  unfold isPriorityArticle.
  rewrite !orb_true_iff, !andb_true_iff, !Z.ltb_lt. intros H Hle.
  destruct H as [[H | [H1 H2]] | [H1 H2]]; [tauto | left; right | right];
    (split; [assumption | lia]).
Qed.

Lemma isPriorityArticle_lower_sentiment_witness :
  isPriorityArticle "Talks collapse" "diplomatic" (-7) = true.
Proof.
  apply (isPriorityArticle_lower_sentiment "Talks collapse" "diplomatic" (-3) (-7)).
  - reflexivity.
  - lia.
Defined.

Lemma lower_upper_char (c : ascii) :
  Js.lower_char c = c -> Js.lower_char (Js.upper_char c) = c.
Proof.
  destruct c as [[] [] [] [] [] [] [] []]; intros H;
    first [reflexivity | vm_compute in H; discriminate H].
Qed.

Lemma eq_ignore_case_lower (k c : ascii) :
  Js.lower_char k = k -> Js.lower_char c = c ->
  Js.eq_ignore_case k c = Ascii.eqb k c.
Proof.
  intros Hk Hc. unfold Js.eq_ignore_case.
  destruct (Ascii.eqb_spec k c) as [->|Hne]; [apply Ascii.eqb_refl|].
  apply Ascii.eqb_neq. intros E. apply Hne.
  rewrite <- (lower_upper_char k Hk), <- (lower_upper_char c Hc). now rewrite E.
Qed.

(** On a lower-case text, a lower-case pattern matches where it occurs. *)
Lemma matchesAt_startsWith (kw s : string) :
  Js.toLowerCase kw = kw -> Js.toLowerCase s = s ->
  Js.matchesAt kw s = Js.startsWith s kw.
Proof.
  revert s. induction kw as [|k kw IH]; intros [|c s] Hkw Hs; simpl;
    try reflexivity.
  simpl in Hkw, Hs. injection Hkw as Hk Hkw. injection Hs as Hc Hs.
  now rewrite eq_ignore_case_lower, IH.
Qed.

Lemma toLowerCase_suffix (pre post : string) :
  Js.toLowerCase (pre ++ post) = pre ++ post -> Js.toLowerCase post = post.
Proof.
  induction pre as [|c pre IH]; simpl; [tauto|].
  intros H. injection H as _ H. now apply IH.
Qed.

Lemma scan_positive (kw s : string) :
  kw <> "" ->
  (0 < Js.matchCount s kw <->
   exists pre post, s = pre ++ post /\ Js.matchesAt kw post = true).
Proof.
  intros Hkw. unfold Js.matchCount. split.
  - assert (G : forall skip, 0 < Js.scan kw skip s ->
                  exists pre post, s = pre ++ post /\ Js.matchesAt kw post = true);
      [|apply G].
    induction s as [|c s IH]; intros skip; simpl; [lia|].
    destruct skip as [|skip].
    + destruct (Js.matchesAt kw (String c s)) eqn:E.
      * intros _. now exists "", (String c s).
      * intros H. destruct (IH _ H) as [pre [post [-> Hm]]].
        now exists (String c pre), post.
    + intros H. destruct (IH _ H) as [pre [post [-> Hm]]].
      now exists (String c pre), post.
  - intros [pre [post [-> Hm]]]. induction pre as [|c pre IH]; simpl.
    + destruct post as [|c post]; [destruct kw; [congruence | discriminate]|].
      cbn [Js.scan]. rewrite Hm. lia.
    + destruct (Js.matchesAt kw (String c (pre ++ post))); [lia | exact IH].
Qed.

Lemma keywordScore_zero (textLower : string) (keywords : list string) :
  keywordScore textLower keywords = 0 <->
  forall keyword, In keyword keywords -> Js.matchCount textLower keyword = 0.
Proof.
  unfold keywordScore.
  assert (G : forall acc,
             fold_left (fun score keyword => score + Js.matchCount textLower keyword)
                       keywords acc = 0 <->
             acc = 0 /\ forall keyword, In keyword keywords ->
                                        Js.matchCount textLower keyword = 0).
  { induction keywords as [|k l IH]; intros acc; simpl.
    - split; [intros ->; split; [reflexivity | tauto] | tauto].
    - rewrite IH. split.
      + intros [H1 H2]. split; [lia|]. intros kw [<- | Hin]; [lia | auto].
      + intros [-> H]. split; [rewrite (H k); auto | auto]. }
  rewrite G. tauto.
Qed.

Lemma lexicon_lower_case :
  forall category keywords keyword,
    In (category, keywords) Lexicon.categories -> In keyword keywords ->
    Js.toLowerCase keyword = keyword /\ keyword <> "".
Proof.
  assert (H : forallb
                (fun e => forallb
                            (fun kw => String.eqb (Js.toLowerCase kw) kw
                                       && negb (String.eqb kw ""))
                            (snd e))
                Lexicon.categories = true) by (vm_compute; reflexivity).
  intros category keywords keyword Hc Hk.
  rewrite forallb_forall in H. specialize (H _ Hc). simpl in H.
  rewrite forallb_forall in H. specialize (H _ Hk).
  apply andb_true_iff in H. destruct H as [H1 H2].
  apply String.eqb_eq in H1. apply negb_true_iff, String.eqb_neq in H2. tauto.
Qed.

(** A keyword of the lexicon is counted at least once exactly when it
    occurs in the lower-cased text. *)
Lemma matchCount_includes (text category : string) (keywords : list string)
      (keyword : string) :
  In (category, keywords) Lexicon.categories -> In keyword keywords ->
  (Js.matchCount (Js.toLowerCase text) keyword = 0 <->
   Js.includes (Js.toLowerCase text) keyword = false).
Proof.
  intros Hc Hk. destruct (lexicon_lower_case _ _ _ Hc Hk) as [Hlow Hne].
  pose proof (scan_positive keyword (Js.toLowerCase text) Hne) as Hpos.
  pose proof (includes_spec (Js.toLowerCase text) keyword) as Hinc.
  assert (Heq : (exists pre post, Js.toLowerCase text = pre ++ post
                                  /\ Js.matchesAt keyword post = true)
                <-> (exists pre post, Js.toLowerCase text = pre ++ keyword ++ post)).
  { split.
    - intros [pre [post [E Hm]]].
      rewrite matchesAt_startsWith in Hm;
        [|assumption | apply (toLowerCase_suffix pre); rewrite <- E;
                       apply toLowerCase_idempotent].
      apply startsWith_spec in Hm. destruct Hm as [post' ->]. now exists pre, post'.
    - intros [pre [post E]]. exists pre, (keyword ++ post). split; [assumption|].
      rewrite matchesAt_startsWith;
        [apply startsWith_spec; now exists post | assumption
         | apply (toLowerCase_suffix pre); rewrite <- E;
           apply toLowerCase_idempotent]. }
  rewrite <- not_true_iff_false, Hinc, <- Heq, <- Hpos. lia.
Qed.

(** No category scores exactly when no keyword of the lexicon occurs. *)
Lemma no_hits_iff_no_keyword (text : string) :
  (hits "military" text = 0 /\ hits "diplomatic" text = 0
   /\ hits "economic" text = 0 /\ hits "social" text = 0)
  <-> forall category keywords keyword,
      In (category, keywords) Lexicon.categories ->
      In keyword keywords ->
      Js.includes (Js.toLowerCase text) keyword = false.
Proof.
  assert (Hzero : forall category keywords,
             In (category, keywords) Lexicon.categories ->
             (hits category text = 0 <->
              forall keyword, In keyword keywords ->
                              Js.includes (Js.toLowerCase text) keyword = false)).
  { intros category keywords Hc. rewrite (hits_score _ _ _ Hc), keywordScore_zero.
    split; intros H keyword Hk; apply (matchCount_includes _ _ _ _ Hc Hk); auto. }
  split.
  - intros [Hm [Hd [He Hs]]] category keywords keyword Hc.
    apply (Hzero _ _ Hc).
    unfold Lexicon.categories in Hc. simpl in Hc.
    destruct Hc as [E | [E | [E | [E | []]]]]; injection E as <- _; assumption.
  - intros H.
    repeat split;
      match goal with
      | |- hits ?name text = 0 =>
          destruct (find (fun e => String.eqb (fst e) name) Lexicon.categories)
            as [[n kws]|] eqn:F; [|discriminate F];
          apply find_some in F; destruct F as [Hin Hn];
          apply String.eqb_eq in Hn; simpl in Hn; subst n;
          apply (Hzero _ _ Hin); intros keyword Hk; exact (H _ _ _ Hin Hk)
      end.
Qed.

(** X7. [categorizeArticle] returns [other] exactly when no keyword of the
    lexicon occurs in the lower-cased text. *)
Theorem categorizeArticle_other_iff_no_keyword (text : string) :
  categorizeArticle text = "other" <->
  forall category keywords keyword,
    In (category, keywords) Lexicon.categories -> In keyword keywords ->
    Js.includes (Js.toLowerCase text) keyword = false.
Proof.
  rewrite <- no_hits_iff_no_keyword.
  pose proof (categorizeArticle_cases text) as H. cbv zeta in H.
  destruct H as [H | [H | [H | [H | H]]]]; destruct H as [E H]; rewrite E;
    split; intros G; try discriminate G; try reflexivity; try lia.
Qed.

(** ** Request handler: further properties *)

Section ServerFurther.

Variable analyze : string -> Sentiment.Analysis.

(** The process after the handler has waited for the provider. *)
Let afterFetch (upstream : Upstream) (w : World) : World :=
  {| wallClock := wallClock w + latency upstream;
     newsCache := newsCache w;
     GNEWS_API_KEY := GNEWS_API_KEY w;
     fetches := S (fetches w) |}.

(** Without a fresh entry and with a key, a body with an article list is
    processed, stored with the time at which the request began, and
    returned. *)
Lemma apiNews_refreshed (upstream : Upstream) (w : World)
      (rawArticles : list RawArticle) :
  freshEntry (newsCache w) (wallClock w) = None ->
  missingKey (GNEWS_API_KEY w) = false ->
  result upstream = FetchBody (Some rawArticles) ->
  exists summary,
    calculateAnalytics (map (processArticle analyze) rawArticles)
                       (afterFetch upstream w)
    = (Ok summary, afterFetch upstream w)
    /\ apiNews analyze upstream w =
       (Ok (Json {| articles := map (processArticle analyze) rawArticles;
                    analytics := summary |}),
        {| wallClock := wallClock w + latency upstream;
           newsCache :=
             {| data := Some {| articles := map (processArticle analyze) rawArticles;
                                analytics := summary |};
                lastFetched := Some (wallClock w) |};
           GNEWS_API_KEY := GNEWS_API_KEY w;
           fetches := S (fetches w) |}).
Proof.
  intros Hstale Hkey Hbody.
  destruct (calculateAnalytics_total (map (processArticle analyze) rawArticles)
                                     (afterFetch upstream w)) as [summary Hs].
  exists summary. split; [exact Hs|].
  run_handler. rewrite Hstale. cbv beta iota. rewrite Hkey, Hbody.
  cbv beta iota. fold (afterFetch upstream w). rewrite Hs. reflexivity.
Qed.

(** Every request in one of its four courses. *)
Lemma apiNews_courses (upstream : Upstream) (w : World) :
  (exists d, freshEntry (newsCache w) (wallClock w) = Some d
             /\ apiNews analyze upstream w = (Ok (Json d), w))
  \/ (freshEntry (newsCache w) (wallClock w) = None
      /\ missingKey (GNEWS_API_KEY w) = true
      /\ apiNews analyze upstream w =
         (Ok (ServerError "API key not configured" None), w))
  \/ (freshEntry (newsCache w) (wallClock w) = None
      /\ missingKey (GNEWS_API_KEY w) = false
      /\ refreshFails upstream
      /\ exists error details,
           apiNews analyze upstream w =
           (Ok (ServerError error details), afterFetch upstream w))
  \/ (freshEntry (newsCache w) (wallClock w) = None
      /\ missingKey (GNEWS_API_KEY w) = false
      /\ exists rawArticles summary,
           result upstream = FetchBody (Some rawArticles)
           /\ apiNews analyze upstream w =
              (Ok (Json {| articles := map (processArticle analyze) rawArticles;
                           analytics := summary |}),
               {| wallClock := wallClock w + latency upstream;
                  newsCache :=
                    {| data := Some {| articles :=
                                         map (processArticle analyze) rawArticles;
                                       analytics := summary |};
                       lastFetched := Some (wallClock w) |};
                  GNEWS_API_KEY := GNEWS_API_KEY w;
                  fetches := S (fetches w) |})).
Proof.
  destruct (freshEntry (newsCache w) (wallClock w)) as [d|] eqn:Hfresh.
  - left. exists d. split; [reflexivity | now apply apiNews_cached].
  - right. destruct (missingKey (GNEWS_API_KEY w)) eqn:Hkey.
    + left. repeat split. run_handler. now rewrite Hfresh, Hkey.
    + right. destruct (result upstream) as [message | [rawArticles|]] eqn:Hres.
      * left. repeat split; [unfold refreshFails; now rewrite Hres|].
        eexists _, _. run_handler. rewrite Hfresh, Hkey, Hres. reflexivity.
      * right. repeat split.
        destruct (apiNews_refreshed upstream w rawArticles Hfresh Hkey Hres)
          as [summary [_ H]].
        now exists rawArticles, summary.
      * left. repeat split; [unfold refreshFails; now rewrite Hres|].
        eexists _, _. run_handler. rewrite Hfresh, Hkey, Hres. reflexivity.
Qed.

(** X8. The handler always answers, with articles or with an error; it
    never lets an exception through.  It asks the provider once when there
    is no fresh entry and a key is configured, and not at all otherwise;
    it never changes the key. *)
Theorem apiNews_always_answers (upstream : Upstream) (w : World) :
  exists reply w',
    apiNews analyze upstream w = (Ok reply, w')
    /\ GNEWS_API_KEY w' = GNEWS_API_KEY w
    /\ fetches w' =
       match freshEntry (newsCache w) (wallClock w) with
       | Some _ => fetches w
       | None => if missingKey (GNEWS_API_KEY w) then fetches w
                 else S (fetches w)
       end.
Proof.
  destruct (apiNews_courses upstream w)
    as [[d [Hf H]] | [[Hf [Hk H]] | [[Hf [Hk [_ [e [dt H]]]]]
                                    | [Hf [Hk [raws [s [_ H]]]]]]]];
    rewrite H, Hf, ?Hk; eexists _, _; repeat split.
Qed.

(** X9. Without a fresh entry and without a key (unset or empty) the
    reply is the error [API key not configured]; the provider is not asked
    and the process stays as it was. *)
Theorem apiNews_missing_key (upstream : Upstream) (w : World) :
  freshEntry (newsCache w) (wallClock w) = None ->
  GNEWS_API_KEY w = None \/ GNEWS_API_KEY w = Some "" ->
  apiNews analyze upstream w =
  (Ok (ServerError "API key not configured" None), w).
Proof.
  intros Hf Hk.
  assert (Hm : missingKey (GNEWS_API_KEY w) = true)
    by (destruct Hk as [-> | ->]; reflexivity).
  destruct (apiNews_courses upstream w)
    as [[d [Hf' _]] | [[_ [_ H]] | [[_ [Hk' _]] | [_ [Hk' _]]]]];
    congruence.
Qed.

(** X12. A request never empties the cache: an entry that is stored stays
    stored or is replaced by a new one, and the time of the entry either
    stays or becomes the time at which this request began. *)
Theorem apiNews_keeps_an_entry (upstream : Upstream) (w : World) :
  exists reply w',
    apiNews analyze upstream w = (Ok reply, w')
    /\ (data (newsCache w) <> None -> data (newsCache w') <> None)
    /\ (newsCache w' = newsCache w
        \/ (lastFetched (newsCache w') = Some (wallClock w)
            /\ exists body, reply = Json body
                            /\ data (newsCache w') = Some body)).
Proof.
  destruct (apiNews_courses upstream w)
    as [[d [Hf H]] | [[Hf [Hk H]] | [[Hf [Hk [_ [e [dt H]]]]]
                                    | [Hf [Hk [raws [s [_ H]]]]]]]];
    rewrite H; eexists _, _; (split; [reflexivity|]); cbn [newsCache data lastFetched].
  - split; [tauto | now left].
  - split; [tauto | now left].
  - split; [tauto | now left].
  - split; [discriminate|]. right. split; [reflexivity|]. now eexists.
Qed.

End ServerFurther.

Section ServerReplies.

Variable analyze : string -> Sentiment.Analysis.

Lemma processArticle_category (article : RawArticle) :
  In (category (processArticle analyze article))
     ["military"; "diplomatic"; "economic"; "social"; "other"].
Proof.
  cbn [processArticle category].
  pose proof (categorizeArticle_cases (textToAnalyze article)) as H. cbv zeta in H.
  destruct H as [H | [H | [H | [H | H]]]]; destruct H as [-> _]; simpl; tauto.
Qed.

Lemma missingKey_false (key : string) :
  key <> "" -> missingKey (Some key) = false.
Proof. intros H. simpl. now apply String.eqb_neq. Qed.

(** X10. When there is no fresh entry and the handler replies with
    articles, the provider was asked once, with a key configured, and
    returned an article list; the reply holds one annotated article for
    each article of the list, in the same order, and analytics unless the
    list is empty; and the reply is stored with the time at which the
    request began, not the time at which the provider answered. *)
Theorem apiNews_refresh_stores
  (upstream : Upstream) (w w' : World) (body : Response) :
  freshEntry (newsCache w) (wallClock w) = None ->
  apiNews analyze upstream w = (Ok (Json body), w') ->
  exists rawArticles,
    result upstream = FetchBody (Some rawArticles)
    /\ missingKey (GNEWS_API_KEY w) = false
    /\ map raw (articles body) = rawArticles
    /\ (analytics body = None <-> rawArticles = [])
    /\ newsCache w' = {| data := Some body; lastFetched := Some (wallClock w) |}
    /\ wallClock w' = (wallClock w + latency upstream)%Z
    /\ fetches w' = S (fetches w).
Proof.
  intros Hf Hreply.
  destruct (apiNews_courses analyze upstream w)
    as [[d [Hf' _]] | [[_ [_ H]] | [[_ [_ [_ [e [dt H]]]]]
                                   | [_ [Hm [rawArticles [s [Hres _]]]]]]]];
    try congruence.
  destruct (apiNews_refreshed analyze upstream w rawArticles Hf Hm Hres)
    as [summary [Hs H]].
  rewrite H in Hreply. injection Hreply as <- <-.
  exists rawArticles. cbn [articles analytics newsCache wallClock fetches].
  split; [assumption|]. split; [assumption|].
  split; [rewrite map_map; apply map_id|].
  split; [|repeat split].
  destruct rawArticles as [|r rest].
  - simpl in Hs. injection Hs as <-. tauto.
  - rewrite calculateAnalytics_returns in Hs by discriminate.
    injection Hs as <-. split; discriminate.
Qed.

(** X11. In a reply computed from a non-empty article list every article
    has one of the five categories, and the category counts of the
    analytics, like the sentiment counts, add up to the number of articles
    of the provider. *)
Theorem apiNews_reply_counts
  (upstream : Upstream) (w : World) (key : string)
  (rawArticles : list RawArticle) :
  freshEntry (newsCache w) (wallClock w) = None ->
  GNEWS_API_KEY w = Some key -> key <> "" ->
  result upstream = FetchBody (Some rawArticles) ->
  rawArticles <> [] ->
  exists body summary w',
    apiNews analyze upstream w = (Ok (Json body), w')
    /\ analytics body = Some summary
    /\ (forall a, In a (articles body) ->
          In (category a) ["military"; "diplomatic"; "economic"; "social"; "other"])
    /\ military (categories summary) + diplomatic (categories summary)
       + economic (categories summary) + social (categories summary)
       + other (categories summary) = List.length rawArticles
    /\ positive (sentimentCounts summary) + neutral (sentimentCounts summary)
       + negative (sentimentCounts summary) = List.length rawArticles.
Proof.
  intros Hf Hk Hne Hres Hnonempty.
  assert (Hm : missingKey (GNEWS_API_KEY w) = false)
    by (rewrite Hk; now apply missingKey_false).
  destruct (apiNews_refreshed analyze upstream w rawArticles Hf Hm Hres)
    as [summary [Hs H]].
  assert (Hcat : forall a, In a (map (processArticle analyze) rawArticles) ->
            In (category a) ["military"; "diplomatic"; "economic"; "social"; "other"]).
  { intros a Ha. apply in_map_iff in Ha. destruct Ha as [r [<- _]].
    apply processArticle_category. }
  rewrite calculateAnalytics_returns in Hs
    by (destruct rawArticles; [congruence | discriminate]).
  injection Hs as <-.
  eexists _, _, _. split; [exact H|]. cbn [articles analytics].
  split; [reflexivity|]. split; [exact Hcat|].
  cbn [categories sentimentCounts military diplomatic economic social other
       positive neutral negative].
  rewrite <- (length_map (processArticle analyze) rawArticles). split.
  - apply length_five_way. intros a Ha. unfold hasCategory.
    destruct (Hcat a Ha) as [E | [E | [E | [E | [E | []]]]]];
      rewrite <- E; reflexivity.
  - apply length_three_way. intros a _.
    destruct (Z.ltb_spec 0 (sentiment a)), (Z.eqb_spec (sentiment a) 0),
      (Z.ltb_spec (sentiment a) 0); simpl; lia.
Qed.

(** Among the annotated articles, a diplomatic one with sentiment below
    -2 is always a priority article, and an article is a priority article
    only if it is military, or diplomatic with sentiment below -2, or has
    a sentiment below -3. *)
Lemma processArticle_priority (article : RawArticle) :
  let a := processArticle analyze article in
  (category a = "diplomatic" -> (sentiment a < -2)%Z -> isPriority a = true)
  /\ (isPriority a = true ->
      category a = "military"
      \/ (category a = "diplomatic" /\ (sentiment a < -2)%Z)
      \/ (sentiment a < -3)%Z).
Proof.
  cbn [processArticle category sentiment isPriority]. unfold isPriorityArticle.
  split.
  - intros -> H. apply Z.ltb_lt in H. rewrite H. reflexivity.
  - rewrite !orb_true_iff, !andb_true_iff, !String.eqb_eq, !Z.ltb_lt. tauto.
Qed.

(** X13. The time to live of a stored reply runs from the beginning of
    the request that fetched it.  When the provider took [latency] to
    answer, a request [dt] after the reply is served from the cache if
    [latency + dt] is below the time to live, and asks the provider again
    if not. *)
Theorem apiNews_entry_lifetime
  (upstream : Upstream) (w : World) (key : string)
  (rawArticles : list RawArticle) (dt : Z) :
  freshEntry (newsCache w) (wallClock w) = None ->
  GNEWS_API_KEY w = Some key -> key <> "" ->
  result upstream = FetchBody (Some rawArticles) ->
  exists body w',
    apiNews analyze upstream w = (Ok (Json body), w')
    /\ ((latency upstream + dt < ttl)%Z ->
        forall next,
          apiNews analyze next (later dt w') = (Ok (Json body), later dt w'))
    /\ ((ttl <= latency upstream + dt)%Z ->
        forall next, exists reply w'',
          apiNews analyze next (later dt w') = (Ok reply, w'')
          /\ fetches w'' = S (S (fetches w))).
Proof.
  intros Hf Hk Hne Hres.
  assert (Hm : missingKey (GNEWS_API_KEY w) = false)
    by (rewrite Hk; now apply missingKey_false).
  destruct (apiNews_refreshed analyze upstream w rawArticles Hf Hm Hres)
    as [summary [_ H]].
  eexists _, _. split; [exact H|]. split.
  - intros Hlt next. apply apiNews_cached. apply freshEntry_Some.
    exists (wallClock w). split; [reflexivity|]. cbn [later wallClock]. lia.
  - intros Hge next.
    match goal with
    | |- context [later dt ?w1] => set (w' := w1)
    end.
    assert (Hstale : freshEntry (newsCache (later dt w')) (wallClock (later dt w'))
                     = None).
    { destruct (freshEntry (newsCache (later dt w')) (wallClock (later dt w')))
        as [d|] eqn:E; [|reflexivity].
      apply freshEntry_Some in E. destruct E as [t [E Ht]].
      subst w'. cbn [later newsCache wallClock] in E, Ht.
      injection E as _ <-. lia. }
    assert (Hkey : missingKey (GNEWS_API_KEY (later dt w')) = false)
      by (subst w'; cbn [later GNEWS_API_KEY]; exact Hm).
    destruct (apiNews_courses analyze next (later dt w'))
      as [[d [Hf' _]] | [[_ [Hk' _]] | [[_ [_ [_ [e [dt' G]]]]]
                                       | [_ [_ [raws [s' [_ G]]]]]]]];
      try congruence; rewrite G; eexists _, _; split; reflexivity.
Qed.

End ServerReplies.

Lemma apiNews_missing_key_witness :
  apiNews sampleAnalyze providerUp
          {| wallClock := 0;
             newsCache := {| data := None; lastFetched := None |};
             GNEWS_API_KEY := Some "";
             fetches := 0 |}
  = (Ok (ServerError "API key not configured" None),
     {| wallClock := 0;
        newsCache := {| data := None; lastFetched := None |};
        GNEWS_API_KEY := Some "";
        fetches := 0 |}).
Proof.
  apply apiNews_missing_key.
  - reflexivity.
  - now right.
Defined.

Lemma apiNews_refresh_stores_witness :
  exists body w',
    apiNews sampleAnalyze providerUp (worldAt 0) = (Ok (Json body), w')
    /\ exists rawArticles,
         result providerUp = FetchBody (Some rawArticles)
         /\ missingKey (GNEWS_API_KEY (worldAt 0)) = false
         /\ map raw (articles body) = rawArticles
         /\ (analytics body = None <-> rawArticles = [])
         /\ newsCache w' = {| data := Some body; lastFetched := Some 0%Z |}
         /\ wallClock w' = (0 + 200)%Z
         /\ fetches w' = 1.
Proof.
  destruct (apiNews sampleAnalyze providerUp (worldAt 0)) as [reply w'] eqn:E.
  pose proof E as E'. vm_compute in E'. injection E' as <- <-.
  eexists _, _. split; [reflexivity|].
  apply (apiNews_refresh_stores sampleAnalyze providerUp (worldAt 0)).
  - reflexivity.
  - exact E.
Defined.

Lemma apiNews_reply_counts_witness :
  exists body summary w',
    apiNews sampleAnalyze providerUp (worldAt 0) = (Ok (Json body), w')
    /\ analytics body = Some summary
    /\ (forall a, In a (articles body) ->
          In (category a) ["military"; "diplomatic"; "economic"; "social"; "other"])
    /\ military (categories summary) + diplomatic (categories summary)
       + economic (categories summary) + social (categories summary)
       + other (categories summary) = 2
    /\ positive (sentimentCounts summary) + neutral (sentimentCounts summary)
       + negative (sentimentCounts summary) = 2.
Proof.
  apply (apiNews_reply_counts sampleAnalyze providerUp (worldAt 0) "key" sampleBody).
  - reflexivity.
  - reflexivity.
  - discriminate.
  - reflexivity.
  - discriminate.
Defined.

(** ** Sorting and key insights *)

Lemma sortWith_ext {A} (c c' : A -> A -> Z) (l : list A) :
  (forall x y, c x y = c' x y) -> sortWith c l = sortWith c' l.
Proof.
  intros H. induction l as [|x l IH]; [reflexivity|]. simpl. rewrite IH.
  generalize (sortWith c' l) as s. induction s as [|y s IHs]; [reflexivity|].
  simpl. now rewrite H, IHs.
Qed.

(** The first element of the sorted list is the first element with the
    least key. *)
Lemma sortWith_head {A} (key : A -> Z) (l : list A) :
  l <> [] ->
  exists a rest,
    sortWith (fun x y => key x - key y)%Z l = a :: rest
    /\ firstLeast key l a.
Proof.
  induction l as [|x l IH]; [congruence|]. intros _.
  destruct l as [|x' l'].
  - exists x, []. split; [reflexivity|]. exists [], []. simpl. tauto.
  - destruct IH as [a [rest [Hs [pre [post [Hl [Hpre Hpost]]]]]]]; [discriminate|].
    change (sortWith (fun x y => key x - key y)%Z (x :: x' :: l'))
      with (insertSorted (fun x y => key x - key y)%Z x
              (sortWith (fun x y => key x - key y)%Z (x' :: l'))).
    rewrite Hs. cbn [insertSorted].
    destruct (Z.ltb_spec 0 (key x - key a)) as [Hlt | Hge].
    + exists a, (insertSorted (fun x y => key x - key y)%Z x rest).
      split; [reflexivity|]. exists (x :: pre), post. rewrite Hl.
      split; [reflexivity|]. split; [|assumption].
      intros b [<- | Hb]; [lia | auto].
    + exists x, (a :: rest). split; [reflexivity|]. exists [], (x' :: l').
      split; [reflexivity|]. split; [simpl; tauto|].
      intros b Hb. rewrite Hl in Hb. apply in_app_or in Hb.
      destruct Hb as [Hb | [<- | Hb]].
      * specialize (Hpre b Hb). lia.
      * lia.
      * specialize (Hpost b Hb). lia.
Qed.

(** X14. For a non-empty article list [mostNegative] is the first article
    with the lowest sentiment and [mostPositive] the first article with
    the highest sentiment. *)
Theorem keyInsights_first_extremes (articles : list Article) :
  articles <> [] ->
  exists lowest highest,
    mostNegative articles = Some (toInsight lowest)
    /\ firstLeast sentiment articles lowest
    /\ mostPositive articles = Some (toInsight highest)
    /\ firstLeast (fun a => - sentiment a)%Z articles highest.
Proof.
  intros Hne.
  destruct (sortWith_head sentiment articles Hne) as [lo [rest [Hs Hlo]]].
  destruct (sortWith_head (fun a => - sentiment a)%Z articles Hne)
    as [hi [rest' [Hs' Hhi]]].
  exists lo, hi. unfold mostNegative, mostPositive.
  rewrite Hs.
  rewrite (sortWith_ext (fun a b => sentiment b - sentiment a)%Z
                        (fun x y => - sentiment x - - sentiment y)%Z)
    by (intros; lia).
  rewrite Hs'. repeat split; assumption.
Qed.

Lemma keyInsights_first_extremes_witness :
  exists lowest highest,
    mostNegative sampleFeed = Some (toInsight lowest)
    /\ firstLeast sentiment sampleFeed lowest
    /\ mostPositive sampleFeed = Some (toInsight highest)
    /\ firstLeast (fun a => - sentiment a)%Z sampleFeed highest.
Proof.
  apply keyInsights_first_extremes. discriminate.
Defined.

Lemma firstLeast_In {A} (key : A -> Z) (l : list A) (a : A) :
  firstLeast key l a -> In a l /\ forall b, In b l -> (key a <= key b)%Z.
Proof.
  intros [pre [post [-> [Hpre Hpost]]]]. split.
  - apply in_or_app. right. now left.
  - intros b Hb. apply in_app_or in Hb. destruct Hb as [Hb | [<- | Hb]].
    + specialize (Hpre b Hb). lia.
    + lia.
    + now apply Hpost.
Qed.

Lemma length_filter_zero {A} (p : A -> bool) (l : list A) :
  List.length (filter p l) = 0 <-> forall a, In a l -> p a = false.
Proof.
  induction l as [|x l IH]; simpl; [tauto|].
  destruct (p x) eqn:E; simpl.
  - split; [discriminate|]. intros H. specialize (H x (or_introl eq_refl)). congruence.
  - rewrite IH. split.
    + intros H a [<- | Ha]; auto.
    + intros H a Ha. apply H. now right.
Qed.

(** X15. The key insights agree with the sentiment counts of the same
    summary: no article is counted as negative exactly when the sentiment
    of [mostNegative] is 0 or more, and none as positive exactly when the
    sentiment of [mostPositive] is 0 or less. *)
Theorem keyInsights_agree_with_counts (articles : list Article) (w : World) :
  articles <> [] ->
  exists summary lowest highest,
    calculateAnalytics articles w = (Ok (Some summary), w)
    /\ mostNegative articles = Some lowest
    /\ mostPositive articles = Some highest
    /\ (negative (sentimentCounts summary) = 0 <->
        (0 <= insightSentiment lowest)%Z)
    /\ (positive (sentimentCounts summary) = 0 <->
        (insightSentiment highest <= 0)%Z).
Proof.
  intros Hne.
  destruct (sortWith_head sentiment articles Hne) as [lo [rest [Hs Hlo]]].
  destruct (sortWith_head (fun a => - sentiment a)%Z articles Hne)
    as [hi [rest' [Hs' Hhi]]].
  apply firstLeast_In in Hlo, Hhi.
  destruct Hlo as [Hlo_in Hlo]. destruct Hhi as [Hhi_in Hhi].
  eexists _, (toInsight lo), (toInsight hi).
  split; [now apply calculateAnalytics_returns|].
  unfold mostNegative, mostPositive. rewrite Hs.
  rewrite (sortWith_ext (fun a b => sentiment b - sentiment a)%Z
                        (fun x y => - sentiment x - - sentiment y)%Z)
    by (intros; lia).
  rewrite Hs'. split; [reflexivity|]. split; [reflexivity|].
  cbn [sentimentCounts negative positive toInsight insightSentiment].
  rewrite !length_filter_zero. split; split.
  - intros H. specialize (H lo Hlo_in). apply Z.ltb_ge in H. exact H.
  - intros H a Ha. apply Z.ltb_ge. specialize (Hlo a Ha). lia.
  - intros H. specialize (H hi Hhi_in). apply Z.ltb_ge in H. exact H.
  - intros H a Ha. apply Z.ltb_ge. specialize (Hhi a Ha). lia.
Qed.

Lemma keyInsights_agree_with_counts_witness :
  exists summary lowest highest,
    calculateAnalytics sampleFeed (worldAt 1000) = (Ok (Some summary), worldAt 1000)
    /\ mostNegative sampleFeed = Some lowest
    /\ mostPositive sampleFeed = Some highest
    /\ (negative (sentimentCounts summary) = 0 <->
        (0 <= insightSentiment lowest)%Z)
    /\ (positive (sentimentCounts summary) = 0 <->
        (insightSentiment highest <= 0)%Z).
Proof.
  apply keyInsights_agree_with_counts. discriminate.
Defined.

(** ** Significant events *)

Lemma isSignificant_spec (a : Article) :
  isSignificant a = true <->
  (category a = "military" /\ (sentiment a < -3)%Z)
  \/ (category a = "diplomatic" /\ (sentiment a < -4)%Z).
Proof.
  unfold isSignificant.
  now rewrite orb_true_iff, !andb_true_iff, !String.eqb_eq, !Z.ltb_lt.
Qed.

(** X16. For a non-empty article list, every significant event of the
    summary is a military article with sentiment below -3 or a diplomatic
    one with sentiment below -4; there are at most as many events as
    articles counted negative; and when a military one of them is in the
    48-hour window, the crisis level of the same summary is not normal. *)
Theorem significantEvents_consistent (articles : list Article) (w : World) :
  articles <> [] ->
  exists summary,
    calculateAnalytics articles w = (Ok (Some summary), w)
    /\ (forall e, In e (significantEvents summary) ->
          (eventCategory e = "military" /\ (eventSentiment e < -3)%Z)
          \/ (eventCategory e = "diplomatic" /\ (eventSentiment e < -4)%Z))
    /\ List.length (significantEvents summary)
       <= negative (sentimentCounts summary)
    /\ (forall a, In a articles ->
          category a = "military" -> (sentiment a < -3)%Z ->
          withinWindow (wallClock w) a = true ->
          1 <= rank (crisisLevel summary)).
Proof.
  intros Hne. eexists. split; [now apply calculateAnalytics_returns|].
  cbn [significantEvents sentimentCounts negative crisisLevel].
  split; [|split].
  - intros e He. apply in_map_iff in He. destruct He as [a [<- Ha]].
    apply filter_In in Ha. destruct Ha as [_ Ha].
    now apply isSignificant_spec in Ha.
  - rewrite length_map. apply length_filter_le. intros a _ Ha.
    apply isSignificant_spec in Ha. apply Z.ltb_lt. lia.
  - intros a Ha Hc Hs Hw.
    assert (HM : 1 <= negativeMilitary (wallClock w) articles).
    { unfold negativeMilitary.
      destruct (List.length _) eqn:E; [|lia].
      rewrite length_filter_zero in E. specialize (E a Ha).
      rewrite Hw, Hc in E. simpl in E. apply Z.ltb_ge in E. lia. }
    destruct (levelFor_cases (negativeMilitary (wallClock w) articles)
                             (negativeDiplomatic (wallClock w) articles))
      as [H | [H | [H | H]]]; destruct H as [-> H]; simpl; lia.
Qed.

Lemma significantEvents_consistent_witness :
  exists summary,
    calculateAnalytics
      [sampleArticle "Troops attack" "military" (-5) (Instant 0)] (worldAt 1000)
    = (Ok (Some summary), worldAt 1000)
    /\ (forall e, In e (significantEvents summary) ->
          (eventCategory e = "military" /\ (eventSentiment e < -3)%Z)
          \/ (eventCategory e = "diplomatic" /\ (eventSentiment e < -4)%Z))
    /\ List.length (significantEvents summary)
       <= negative (sentimentCounts summary)
    /\ (forall a,
          In a [sampleArticle "Troops attack" "military" (-5) (Instant 0)] ->
          category a = "military" -> (sentiment a < -3)%Z ->
          withinWindow 1000 a = true ->
          1 <= rank (crisisLevel summary)).
Proof.
  apply (significantEvents_consistent
           [sampleArticle "Troops attack" "military" (-5) (Instant 0)]
           (worldAt 1000)).
  discriminate.
Defined.

(** ** The dashboard: category focus *)

(** The sort of the trending keywords is the stable sort by descending
    count. *)
Lemma sortByCount_sortWith (entries : counters) :
  sortByCount entries =
  sortWith (fun a b => Z.of_nat (snd b) - Z.of_nat (snd a))%Z entries.
Proof.
  induction entries as [|e l IH]; [reflexivity|]. simpl. rewrite IH.
  generalize (sortWith (fun a b => Z.of_nat (snd b) - Z.of_nat (snd a))%Z l) as s.
  induction s as [|e' s IHs]; [reflexivity|]. simpl. rewrite IHs.
  destruct (Nat.ltb_spec (snd e) (snd e')),
    (Z.ltb_spec 0 (Z.of_nat (snd e') - Z.of_nat (snd e))); (reflexivity || lia).
Qed.

(** X17. The category on which the dashboard says the reporting is
    focused has the highest of the five counts, and among the categories
    with that count it is the first in the order military, diplomatic,
    economic, social, other. *)
Theorem categoryFocus_first_highest (c : CategoryCounts) :
  exists name n pre post,
    categoryFocus c = Some name
    /\ categoryEntries c = (pre ++ (name, n) :: post)%list
    /\ (forall e, In e pre -> snd e < n)
    /\ (forall e, In e post -> snd e <= n).
Proof.
  destruct (sortWith_head (fun e : string * nat => - Z.of_nat (snd e))%Z
                          (categoryEntries c))
    as [[name n] [rest [Hs [pre [post [Hl [Hpre Hpost]]]]]]]; [discriminate|].
  exists name, n, pre, post. unfold categoryFocus.
  rewrite sortByCount_sortWith.
  rewrite (sortWith_ext _ (fun x y => - Z.of_nat (snd x) - - Z.of_nat (snd y))%Z)
    by (intros; lia).
  rewrite Hs. split; [reflexivity|]. split; [exact Hl|]. split.
  - intros e He. specialize (Hpre e He). simpl in Hpre. lia.
  - intros e He. specialize (Hpost e He). simpl in Hpost. lia.
Qed.

(** ** Trending keywords: the words *)

(** X18. The list of excluded words removes one word only: a word is
    kept exactly when it is longer than 3, is not [with] and is not purely
    numeric.  The other excluded words are too short to pass the length
    test. *)
Theorem keepWord_only_with (w : string) :
  keepWord w =
  (3 <? String.length w)%nat && negb (String.eqb w "with")
  && negb (Js.isNumeric w).
Proof.
  unfold keepWord. destruct (Nat.ltb_spec 3 (String.length w)) as [Hlen | Hlen];
    [|reflexivity].
  cbn [andb]. f_equal. f_equal. unfold excludedWords. cbn [existsb].
  repeat match goal with
         | |- context [String.eqb w ?x] =>
             lazymatch x with
             | "with" => fail
             | _ => destruct (String.eqb_spec w x) as [E | _];
                    [rewrite E in Hlen; simpl in Hlen; lia | cbn [orb]]
             end
         end.
  now rewrite orb_false_r.
Qed.

Lemma everyChar_snoc (p : ascii -> bool) (s : string) (c : ascii) :
  everyChar p (s ++ String c "") = everyChar p s && p c.
Proof.
  induction s as [|d s IH]; simpl; [now rewrite andb_true_r|].
  now rewrite IH, andb_assoc.
Qed.

(** The pieces of a split hold code units of the string that are not
    white space, after those of the piece being read. *)
Lemma splitFrom_chars (p : ascii -> bool) (s : string) :
  forall inSep cur,
    everyChar p cur = true ->
    everyChar (fun c => Js.isSpace c || p c) s = true ->
    Forall (fun piece => everyChar p piece = true) (Js.splitFrom inSep cur s).
Proof.
  induction s as [|c s IH]; intros inSep cur Hcur Hs; simpl.
  - now constructor.
  - simpl in Hs. apply andb_true_iff in Hs. destruct Hs as [Hc Hs].
    destruct (Js.isSpace c) eqn:E.
    + destruct inSep; [now apply IH|]. constructor; [assumption | now apply IH].
    + apply IH; [|assumption]. rewrite everyChar_snoc, Hcur. exact Hc.
Qed.

Lemma everyChar_weaken (p q : ascii -> bool) (s : string) :
  (forall c, p c = true -> q c = true) ->
  everyChar p s = true -> everyChar q s = true.
Proof.
  intros H. induction s as [|c s IH]; simpl; [reflexivity|].
  rewrite !andb_true_iff. intros [Hc Hs]. auto.
Qed.

Lemma everyChar_lower (s : string) :
  everyChar (fun c => Ascii.eqb (Js.lower_char c) c) s = true <->
  Js.toLowerCase s = s.
Proof.
  induction s as [|c s IH]; simpl; [tauto|].
  rewrite andb_true_iff, IH, Ascii.eqb_eq. split.
  - intros [-> ->]. reflexivity.
  - intros H. now injection H.
Qed.

Lemma splitSpaces_pieces (s piece : string) :
  In piece (Js.splitSpaces (Js.toLowerCase s)) ->
  Js.toLowerCase piece = piece
  /\ everyChar (fun c => negb (Js.isSpace c)) piece = true.
Proof.
  intros Hin. unfold Js.splitSpaces in Hin. split.
  - apply everyChar_lower.
    pose proof (splitFrom_chars (fun c => Ascii.eqb (Js.lower_char c) c)
                                (Js.toLowerCase s) false "" eq_refl) as H.
    rewrite Forall_forall in H. apply H; [|assumption].
    apply (everyChar_weaken (fun c => Ascii.eqb (Js.lower_char c) c)).
    + intros c ->. apply orb_true_r.
    + apply everyChar_lower, toLowerCase_idempotent.
  - pose proof (splitFrom_chars (fun c => negb (Js.isSpace c))
                                (Js.toLowerCase s) false "" eq_refl) as H.
    rewrite Forall_forall in H. apply H; [|assumption].
    generalize (Js.toLowerCase s) as t. induction t as [|c t IH]; simpl;
      [reflexivity|].
    rewrite IH. now destruct (Js.isSpace c).
Qed.

Lemma In_assign (obj : counters) (key : string) (v : nat) (x : string) (c : nat) :
  In (x, c) (assign obj key v) -> In (x, c) obj \/ (x = key /\ c = v).
Proof.
  induction obj as [|[k n] rest IH]; simpl.
  - intros [E | []]. injection E as <- <-. tauto.
  - destruct (String.eqb_spec k key) as [->|Hk]; simpl.
    + intros [E | H]; [injection E as <- <-|]; tauto.
    + intros [E | H]; [tauto|]. destruct (IH H); tauto.
Qed.

(** Whatever is counted is a word that was met, counted at least once. *)
Lemma countWords_entries (words : list string) (table : counters) :
  countWords words = Some table ->
  forall x c, In (x, c) table -> In x words /\ 1 <= c.
Proof.
  unfold countWords.
  assert (G : forall acc,
             (forall x c, In (x, c) acc -> In x words /\ 1 <= c) ->
             forall rest, incl rest words ->
             fold_left
               (fun acc word =>
                  match acc with
                  | Some keywords => increment keywords word
                  | None => None
                  end) rest (Some acc) = Some table ->
             forall x c, In (x, c) table -> In x words /\ 1 <= c).
  { intros acc Hacc rest. revert acc Hacc.
    induction rest as [|w rest IH]; intros acc Hacc Hincl; simpl.
    - intros E. injection E as <-. exact Hacc.
    - destruct (increment acc w) as [acc'|] eqn:E.
      + apply IH.
        * unfold increment in E. intros x c Hx.
          destruct (own acc w) as [n|].
          -- injection E as <-. apply In_assign in Hx.
             destruct Hx as [Hx | [-> ->]]; [auto|].
             split; [apply Hincl; now left | lia].
          -- destruct (String.eqb w "__proto__"); [injection E as <-; auto|].
             destruct (String.eqb w "constructor"); [discriminate|].
             injection E as <-. apply In_assign in Hx.
             destruct Hx as [Hx | [-> ->]]; [auto|].
             split; [apply Hincl; now left | lia].
        * intros y Hy. apply Hincl. now right.
      + intros H. exfalso. clear - H. induction rest; simpl in H; [discriminate | auto]. }
  apply G; [intros x c [] | apply incl_refl].
Qed.

Lemma countWords_returns (words : list string) :
  (forall x, In x words -> x <> "constructor") ->
  exists table, countWords words = Some table.
Proof.
  unfold countWords. generalize (@nil (string * nat)) as acc.
  induction words as [|w rest IH]; intros acc H; simpl; [now exists acc|].
  assert (E : exists acc', increment acc w = Some acc').
  { unfold increment. destruct (own acc w); [now eexists|].
    destruct (String.eqb w "__proto__"); [now eexists|].
    destruct (String.eqb_spec w "constructor") as [Ec | _]; [|now eexists].
    exfalso. apply (H w); [now left | assumption]. }
  destruct E as [acc' ->]. apply IH. intros x Hx. apply H. now right.
Qed.

(** X19. For a non-empty article list in which no word is [constructor],
    the summary has trending keywords, and every one of them is
    lower-case, holds no white space, is longer than 3 characters, is not
    [with] and not purely numeric, and is counted at least once. *)
Theorem trendingKeywords_words (articles : list Article) (w : World) :
  articles <> [] ->
  (forall x, In x (flat_map wordsOf articles) -> x <> "constructor") ->
  exists summary top,
    calculateAnalytics articles w = (Ok (Some summary), w)
    /\ trendingKeywords summary = Some top
    /\ forall k,
         In k top ->
         Js.toLowerCase (word k) = word k
         /\ everyChar (fun c => negb (Js.isSpace c)) (word k) = true
         /\ 3 < String.length (word k)
         /\ word k <> "with"
         /\ Js.isNumeric (word k) = false
         /\ 1 <= count k.
Proof.
  intros Hne Hnames.
  destruct (countWords_returns _ Hnames) as [table E].
  eexists _, _. split; [now apply calculateAnalytics_returns|].
  cbn [trendingKeywords]. unfold trending. rewrite E.
  split; [reflexivity|]. intros k Hk. apply in_map_iff in Hk.
  destruct Hk as [[x c] [<- Hin]]. cbn [word count].
  assert (Hin' : In (x, c) table).
  { apply (Permutation_in _ (sortByCount_perm table)).
    rewrite <- (firstn_skipn 10 (sortByCount table)). apply in_or_app. now left. }
  destruct (countWords_entries _ _ E x c Hin') as [Hx Hc].
  apply in_flat_map in Hx. destruct Hx as [a [_ Hx]].
  unfold wordsOf in Hx. apply filter_In in Hx. destruct Hx as [Hsplit Hkeep].
  apply splitSpaces_pieces in Hsplit. destruct Hsplit as [Hlow Hsp].
  unfold keepWord in Hkeep. rewrite !andb_true_iff, !negb_true_iff in Hkeep.
  destruct Hkeep as [[Hlen Hex] Hnum]. apply Nat.ltb_lt in Hlen.
  repeat split; try assumption.
  intros ->. discriminate Hex.
Qed.

Lemma trendingKeywords_words_witness :
  exists summary top,
    calculateAnalytics sampleFeed (worldAt 1000) = (Ok (Some summary), worldAt 1000)
    /\ trendingKeywords summary = Some top
    /\ forall k,
         In k top ->
         Js.toLowerCase (word k) = word k
         /\ everyChar (fun c => negb (Js.isSpace c)) (word k) = true
         /\ 3 < String.length (word k)
         /\ word k <> "with"
         /\ Js.isNumeric (word k) = false
         /\ 1 <= count k.
Proof.
  apply (trendingKeywords_words sampleFeed (worldAt 1000)).
  - discriminate.
  - vm_compute. intros x H.
    repeat (destruct H as [<- | H]; [discriminate|]). destruct H.
Defined.

(** ** The dashboard: bookmarks *)

Lemma strictEq_eq (a b : jsfield) : strictEq a b = true <-> a = b.
Proof.
  destruct a, b; simpl; try (split; [discriminate | congruence]);
    try tauto.
  rewrite String.eqb_eq. split; congruence.
Qed.

Lemma sameUrl_trans (a b c : Article) :
  sameUrl a c = true -> sameUrl b c = sameUrl b a.
Proof.
  unfold sameUrl. intros H. apply strictEq_eq in H.
  destruct (strictEq (url (raw b)) (url (raw a))) eqn:E.
  - apply strictEq_eq in E. apply strictEq_eq. congruence.
  - apply not_true_iff_false. intros E'. apply strictEq_eq in E'.
    apply not_true_iff_false in E. apply E, strictEq_eq. congruence.
Qed.

Lemma sameUrl_refl (a : Article) : sameUrl a a = true.
Proof. now apply strictEq_eq. Qed.

Lemma isBookmarked_filter (bookmarks : list Article) (a b : Article) :
  isBookmarked (filter (fun bookmark => negb (sameUrl bookmark a)) bookmarks) b
  = isBookmarked bookmarks b && negb (sameUrl b a).
Proof.
  unfold isBookmarked. induction bookmarks as [|x l IH]; [reflexivity|]. simpl.
  destruct (sameUrl x a) eqn:Ea; simpl.
  - rewrite IH. destruct (sameUrl x b) eqn:Eb; simpl; [|reflexivity].
    assert (E : sameUrl b a = true).
    { unfold sameUrl in *. apply strictEq_eq in Ea, Eb. apply strictEq_eq.
      congruence. }
    now rewrite E, andb_false_r.
  - rewrite IH. destruct (sameUrl x b) eqn:Eb; simpl; [|reflexivity].
    assert (E : sameUrl b a = false).
    { apply not_true_iff_false. intros E. apply not_true_iff_false in Ea.
      apply Ea. unfold sameUrl in *. apply strictEq_eq in E, Eb.
      apply strictEq_eq. congruence. }
    now rewrite E.
Qed.

Lemma isBookmarked_snoc (bookmarks : list Article) (a b : Article) :
  isBookmarked (bookmarks ++ [a]) b = isBookmarked bookmarks b || sameUrl a b.
Proof.
  unfold isBookmarked. rewrite existsb_app. simpl. now rewrite orb_false_r.
Qed.

(** X20. Toggling the bookmark of an article turns it from bookmarked to
    not bookmarked and back, and changes this for no article with another
    address. *)
Theorem toggleBookmark_flips (bookmarks : list Article) (article : Article) :
  isBookmarked (toggleBookmark bookmarks article) article
  = negb (isBookmarked bookmarks article)
  /\ forall other,
       sameUrl other article = false ->
       isBookmarked (toggleBookmark bookmarks article) other
       = isBookmarked bookmarks other.
Proof.
  unfold toggleBookmark. destruct (isBookmarked bookmarks article) eqn:E; split.
  - now rewrite isBookmarked_filter, sameUrl_refl, andb_false_r.
  - intros other H. now rewrite isBookmarked_filter, H, andb_true_r.
  - now rewrite isBookmarked_snoc, sameUrl_refl, orb_true_r.
  - intros other H. rewrite isBookmarked_snoc.
    replace (sameUrl article other) with false; [apply orb_false_r|].
    symmetry. apply not_true_iff_false. intros H'.
    apply not_true_iff_false in H. apply H. unfold sameUrl in *.
    apply strictEq_eq in H'. now apply strictEq_eq.
Qed.

(** X21. Bookmarking an article that was not bookmarked and removing the
    bookmark again gives back the list of bookmarks as it was. *)
Theorem toggleBookmark_twice (bookmarks : list Article) (article : Article) :
  isBookmarked bookmarks article = false ->
  toggleBookmark (toggleBookmark bookmarks article) article = bookmarks.
Proof.
  intros H. unfold toggleBookmark at 2. rewrite H. unfold toggleBookmark.
  rewrite isBookmarked_snoc, sameUrl_refl, orb_true_r.
  rewrite filter_app. simpl. rewrite sameUrl_refl. simpl. rewrite app_nil_r.
  unfold isBookmarked in H.
  induction bookmarks as [|x l IH]; [reflexivity|]. simpl in *.
  apply orb_false_iff in H. destruct H as [Hx Hl]. rewrite Hx. simpl.
  now rewrite IH.
Qed.

Lemma toggleBookmark_twice_witness :
  toggleBookmark
    (toggleBookmark
       [sampleLinked "https://example.org/1"; sampleLinked "https://example.org/2"]
       (sampleLinked "https://example.org/3"))
    (sampleLinked "https://example.org/3")
  = [sampleLinked "https://example.org/1"; sampleLinked "https://example.org/2"].
Proof.
  apply toggleBookmark_twice. reflexivity.
Defined.

(** X22. When no two bookmarks have the same address, this stays so after
    a toggle. *)
Theorem toggleBookmark_distinct (bookmarks : list Article) (article : Article) :
  NoDup (map (fun b => url (raw b)) bookmarks) ->
  NoDup (map (fun b => url (raw b)) (toggleBookmark bookmarks article)).
Proof.
  intros H. unfold toggleBookmark.
  destruct (isBookmarked bookmarks article) eqn:E.
  - clear E. induction bookmarks as [|x l IH]; [constructor|]. simpl in *.
    inversion H as [|? ? Hx Hl]; subst.
    destruct (sameUrl x article); simpl; [now apply IH|].
    constructor; [|now apply IH].
    intros Hin. apply Hx. apply in_map_iff in Hin.
    destruct Hin as [y [Ey Hy]]. apply filter_In in Hy.
    apply in_map_iff. exists y. tauto.
  - rewrite map_app. simpl.
    apply NoDup_app; [assumption | repeat constructor; tauto |].
    intros u Hu [<- | []]. apply in_map_iff in Hu. destruct Hu as [y [Ey Hy]].
    unfold isBookmarked in E. apply not_true_iff_false in E. apply E.
    apply existsb_exists. exists y. split; [assumption|].
    now apply strictEq_eq.
Qed.

Lemma toggleBookmark_distinct_witness :
  NoDup (map (fun b => url (raw b))
             (toggleBookmark
                [sampleLinked "https://example.org/1";
                 sampleLinked "https://example.org/2";
                 sampleLinked "https://example.org/3"]
                (sampleLinked "https://example.org/2")))
  /\ NoDup (map (fun b => url (raw b))
               (toggleBookmark
                  [sampleLinked "https://example.org/1";
                   sampleLinked "https://example.org/2"]
                  (sampleLinked "https://example.org/3"))).
Proof.
  split.
  - apply (toggleBookmark_distinct
             [sampleLinked "https://example.org/1";
              sampleLinked "https://example.org/2";
              sampleLinked "https://example.org/3"]
             (sampleLinked "https://example.org/2")).
    simpl. repeat constructor; simpl; intuition discriminate.
  - apply (toggleBookmark_distinct
             [sampleLinked "https://example.org/1";
              sampleLinked "https://example.org/2"]
             (sampleLinked "https://example.org/3")).
    simpl. repeat constructor; simpl; intuition discriminate.
Defined.

(** ** The dashboard: filters *)

Lemma toLowerCase_empty (s : string) :
  String.eqb (Js.toLowerCase s) "" = String.eqb s "".
Proof. destruct s; reflexivity. Qed.

Lemma fieldMatches_spec (field : jsfield) (searchQuery : string) :
  fieldMatches field searchQuery = true ->
  exists s pre post,
    field = Text s
    /\ Js.toLowerCase s = pre ++ Js.toLowerCase searchQuery ++ post.
Proof.
  destruct field as [| |s]; simpl; try discriminate.
  rewrite andb_true_iff, includes_spec. intros [_ [pre [post H]]].
  now exists s, pre, post.
Qed.

(** X23. With a category selected, the dashboard lists exactly the
    articles of that category among those it lists for [all] with the same
    search. *)
Theorem filteredNews_by_category
  (news : list Article) (activeFilter searchQuery : string) :
  activeFilter <> "all" ->
  filteredNews news activeFilter searchQuery
  = filter (fun a => String.eqb (category a) activeFilter)
           (filteredNews news "all" searchQuery)
  /\ forall a, In a (filteredNews news activeFilter searchQuery) ->
               category a = activeFilter.
Proof.
  intros Hf. apply String.eqb_neq in Hf.
  assert (E : filteredNews news activeFilter searchQuery
              = filter (fun a => String.eqb (category a) activeFilter)
                       (filteredNews news "all" searchQuery)).
  { unfold filteredNews. rewrite filter_filter. apply filter_ext. intros a.
    cbv zeta. rewrite Hf.
    match goal with
    | |- context [?b || fieldMatches ?t ?q || fieldMatches ?d ?q] =>
        generalize (b || fieldMatches t q || fieldMatches d q)
    end.
    intros found. change (String.eqb "all" "all") with true.
    destruct (String.eqb (category a) activeFilter), found; reflexivity. }
  split; [exact E|]. intros a Ha. rewrite E in Ha. apply filter_In in Ha.
  now apply String.eqb_eq.
Qed.

Lemma filteredNews_by_category_witness :
  filteredNews sampleFeed "military" "pakistan"
  = filter (fun a => String.eqb (category a) "military")
           (filteredNews sampleFeed "all" "pakistan")
  /\ forall a, In a (filteredNews sampleFeed "military" "pakistan") ->
               category a = "military".
Proof.
  apply filteredNews_by_category. discriminate.
Defined.

(** X24. With [all] selected and an empty search the dashboard lists
    every article.  The search ignores the case of the query.  With a
    query that is not empty, a listed article has a title or a description
    in which the query occurs, upper and lower case alike. *)
Theorem filteredNews_search (news : list Article) (activeFilter : string) :
  filteredNews news "all" "" = news
  /\ (forall q q', Js.toLowerCase q = Js.toLowerCase q' ->
        filteredNews news activeFilter q = filteredNews news activeFilter q')
  /\ (forall q a, q <> "" -> In a (filteredNews news activeFilter q) ->
        exists s pre post,
          (title (raw a) = Text s \/ description (raw a) = Text s)
          /\ Js.toLowerCase s = pre ++ Js.toLowerCase q ++ post).
Proof.
  split; [|split].
  - unfold filteredNews.
    transitivity (filter (fun _ : Article => true) news);
      [apply filter_ext; intros a; reflexivity|].
    induction news as [|a l IH]; simpl; congruence.
  - intros q q' E. unfold filteredNews. apply filter_ext. intros a. cbv zeta.
    rewrite <- (toLowerCase_empty q), <- (toLowerCase_empty q'), E.
    unfold fieldMatches. now rewrite E.
  - intros q a Hq Ha. unfold filteredNews in Ha. apply filter_In in Ha.
    destruct Ha as [_ Ha]. cbv zeta in Ha.
    apply String.eqb_neq in Hq. rewrite Hq in Ha. cbn [orb] in Ha.
    apply andb_true_iff in Ha. destruct Ha as [_ Ha].
    apply orb_true_iff in Ha.
    destruct Ha as [Ha | Ha]; apply fieldMatches_spec in Ha;
      destruct Ha as [s [pre [post [E H]]]]; exists s, pre, post; tauto.
Qed.

(** ** Timeline: the grouping by date *)

Lemma ownProperty_None {V} (obj : list (string * V)) (key : string) :
  ownProperty obj key = None <-> ~ In key (map fst obj).
Proof.
  induction obj as [|[k c] rest IH]; simpl; [tauto|].
  destruct (String.eqb_spec k key) as [->|Hk].
  - split; [discriminate | tauto].
  - rewrite IH. tauto.
Qed.

Lemma keys_setProperty {V} (obj : list (string * V)) (key : string) (v : V) :
  map fst (setProperty obj key v) =
  match ownProperty obj key with
  | Some _ => map fst obj
  | None => (map fst obj ++ [key])%list
  end.
Proof.
  induction obj as [|[k c] rest IH]; simpl; [reflexivity|].
  destruct (String.eqb_spec k key) as [->|Hk]; simpl; [reflexivity|].
  rewrite IH. now destruct (ownProperty rest key).
Qed.

Lemma In_setProperty {V} (obj : list (string * V)) (key : string) (v : V)
      (x : string) (d : V) :
  In (x, d) (setProperty obj key v) -> In (x, d) obj \/ (x = key /\ d = v).
Proof.
  induction obj as [|[k n] rest IH]; simpl.
  - intros [E | []]. injection E as <- <-. tauto.
  - destruct (String.eqb_spec k key) as [->|Hk]; simpl.
    + intros [E | H]; [injection E as <- <-|]; tauto.
    + intros [E | H]; [tauto|]. destruct (IH H); tauto.
Qed.

Lemma totalOver_setProperty (f : Timeline.Day -> nat)
      (days : list (string * Timeline.Day)) (key : string) (v : Timeline.Day) :
  totalOver f (setProperty days key v)
  + match ownProperty days key with Some old => f old | None => 0 end
  = totalOver f days + f v.
Proof.
  induction days as [|[k d] rest IH]; simpl; [lia|].
  destruct (String.eqb_spec k key) as [->|Hk]; simpl; lia.
Qed.

Lemma categoryUp_five (d : Timeline.Day) (c : string) :
  In c ["military"; "diplomatic"; "economic"; "social"; "other"] ->
  let d' := categoryUp (countUp d) c in
  Timeline.count d' = S (Timeline.count d)
  /\ Timeline.military d'
     = Timeline.military d + (if String.eqb c "military" then 1 else 0)
  /\ Timeline.diplomatic d'
     = Timeline.diplomatic d + (if String.eqb c "diplomatic" then 1 else 0)
  /\ Timeline.economic d'
     = Timeline.economic d + (if String.eqb c "economic" then 1 else 0)
  /\ Timeline.social d'
     = Timeline.social d + (if String.eqb c "social" then 1 else 0).
Proof.
  intros [<- | [<- | [<- | [<- | [<- | []]]]]]; simpl; repeat split; lia.
Qed.

Section TimelineProperties.

Variable format : Z -> string.
Variable now : Z.

(** What [byDate] holds after the articles [seen]. *)
Let grouped (seen : list Article) (days : list (string * Timeline.Day)) : Prop :=
  totalOver Timeline.count days = List.length seen
  /\ totalOver Timeline.military days
     = List.length (filter (hasCategory "military") seen)
  /\ totalOver Timeline.diplomatic days
     = List.length (filter (hasCategory "diplomatic") seen)
  /\ totalOver Timeline.economic days
     = List.length (filter (hasCategory "economic") seen)
  /\ totalOver Timeline.social days
     = List.length (filter (hasCategory "social") seen)
  /\ NoDup (map fst days)
  /\ (forall date day, In (date, day) days ->
        1 <= Timeline.count day
        /\ Timeline.military day + Timeline.diplomatic day
           + Timeline.economic day + Timeline.social day
           <= Timeline.count day)
  /\ (forall a, In a seen ->
        In (dateOf format now (publishedAt (raw a))) (map fst days)).

Lemma grouped_step (seen : list Article) (days days' : list (string * Timeline.Day))
      (a : Article) :
  In (category a) ["military"; "diplomatic"; "economic"; "social"; "other"] ->
  grouped seen days ->
  addToDate format now days a = Some days' ->
  grouped (seen ++ [a]) days'.
Proof.
  intros Hcat [Hc [Hm [Hd [He [Hs [Hnd [Hday Hcov]]]]]]] Hadd.
  unfold addToDate in Hadd.
  set (date := dateOf format now (publishedAt (raw a))) in *.
  assert (Hstep : exists old day',
             days' = setProperty days date day'
             /\ match ownProperty days date with
                | Some d => old = d
                | None => old = newDay
                end
             /\ day' = categoryUp (countUp old) (category a)).
  { destruct (ownProperty days date) as [d|] eqn:E.
    - injection Hadd as <-. now exists d, (categoryUp (countUp d) (category a)).
    - destruct (existsb (String.eqb date) objectPrototypeNames); [discriminate|].
      injection Hadd as <-.
      now exists newDay, (categoryUp (countUp newDay) (category a)). }
  destruct Hstep as [old [day' [-> [Hold Hday']]]].
  destruct (categoryUp_five old (category a) Hcat) as [Uc [Um [Ud [Ue Us]]]].
  rewrite <- Hday' in Uc, Um, Ud, Ue, Us.
  assert (Htot : forall f, totalOver f (setProperty days date day') + f old
                           = totalOver f days + f day'
                             + match ownProperty days date with
                               | Some _ => 0
                               | None => f newDay
                               end).
  { intros f. pose proof (totalOver_setProperty f days date day') as T.
    destruct (ownProperty days date); subst old; lia. }
  assert (Hzero : forall f, In f [Timeline.count; Timeline.military;
                                  Timeline.diplomatic; Timeline.economic;
                                  Timeline.social] ->
                            match ownProperty days date with
                            | Some _ => 0
                            | None => f newDay
                            end = 0).
  { intros f Hf. destruct (ownProperty days date); [reflexivity|].
    simpl in Hf. destruct Hf as [<- | [<- | [<- | [<- | [<- | []]]]]]; reflexivity. }
  unfold grouped. rewrite !length_filter_app, length_app. unfold hasCategory at 2 4 6 8.
  simpl List.length.
  repeat split.
  - pose proof (Htot Timeline.count) as T.
    rewrite Hzero in T by (simpl; tauto). lia.
  - pose proof (Htot Timeline.military) as T.
    rewrite Hzero in T by (simpl; tauto). lia.
  - pose proof (Htot Timeline.diplomatic) as T.
    rewrite Hzero in T by (simpl; tauto). lia.
  - pose proof (Htot Timeline.economic) as T.
    rewrite Hzero in T by (simpl; tauto). lia.
  - pose proof (Htot Timeline.social) as T.
    rewrite Hzero in T by (simpl; tauto). lia.
  - rewrite keys_setProperty. destruct (ownProperty days date) eqn:E; [assumption|].
    apply ownProperty_None in E.
    apply NoDup_app; [assumption | repeat constructor; tauto |].
    intros x Hx [<- | []]. contradiction.
  - apply In_setProperty in H. destruct H as [H | [_ ->]].
    + now apply (Hday date0).
    + lia.
  - apply In_setProperty in H. destruct H as [H | [_ ->]].
    + now apply (Hday date0).
    + assert (Hb : Timeline.military old + Timeline.diplomatic old
                   + Timeline.economic old + Timeline.social old
                   <= Timeline.count old).
      { destruct (ownProperty days date) as [d|] eqn:E; subst old.
        - assert (Hin : In (date, d) days).
          { clear - E. induction days as [|[k x] rest IH]; simpl in *; [discriminate|].
            destruct (String.eqb_spec k date) as [->|Hk].
            - injection E as ->. now left.
            - right. now apply IH. }
          now apply (Hday date).
        - simpl. lia. }
      destruct Hcat as [E | [E | [E | [E | [E | []]]]]]; rewrite <- E in *;
        simpl in Um, Ud, Ue, Us; lia.
  - intros a' Ha'. rewrite keys_setProperty. apply in_app_or in Ha'.
    destruct Ha' as [Ha' | [<- | []]].
    + specialize (Hcov a' Ha').
      destruct (ownProperty days date); [assumption | apply in_or_app; now left].
    + fold date. destruct (ownProperty days date) eqn:E.
      * destruct (in_dec string_dec date (map fst days)) as [Hin | Hout];
          [assumption|]. apply ownProperty_None in Hout. congruence.
      * apply in_or_app. right. now left.
Qed.

Lemma grouped_fold (articles seen : list Article)
      (days result : list (string * Timeline.Day)) :
  (forall a, In a articles ->
     In (category a) ["military"; "diplomatic"; "economic"; "social"; "other"]) ->
  grouped seen days ->
  fold_left
    (fun acc article =>
       match acc with
       | Some byDate => addToDate format now byDate article
       | None => None
       end)
    articles (Some days) = Some result ->
  grouped (seen ++ articles) result.
Proof.
  revert seen days. induction articles as [|a rest IH]; intros seen days Hcat Hg; simpl.
  - intros E. injection E as <-. now rewrite app_nil_r.
  - destruct (addToDate format now days a) as [days'|] eqn:E.
    + intros H. change (a :: rest) with ([a] ++ rest)%list. rewrite app_assoc.
      apply (IH _ days').
      * intros b Hb. apply Hcat. now right.
      * apply (grouped_step seen days days' a); auto. apply Hcat. now left.
      * exact H.
    + intros H. exfalso. clear - H. induction rest; simpl in H; [discriminate | auto].
Qed.

(** X25. When the articles have categories among the five and the grouping
    by date gives the days of the timeline, the counts of the days add up
    to the number of articles, and the military, diplomatic, economic and
    social counts of the days add up to the numbers of articles of these
    categories.  Every date stands once; every day has one article at
    least, and as many as its four category counts together or more; the
    date of every article is among the days. *)
Theorem timeline_totals (articles : list Article)
        (days : list (string * Timeline.Day)) :
  (forall a, In a articles ->
     In (category a) ["military"; "diplomatic"; "economic"; "social"; "other"]) ->
  groupByDate format now articles = Some days ->
  totalOver Timeline.count days = List.length articles
  /\ totalOver Timeline.military days
     = List.length (filter (hasCategory "military") articles)
  /\ totalOver Timeline.diplomatic days
     = List.length (filter (hasCategory "diplomatic") articles)
  /\ totalOver Timeline.economic days
     = List.length (filter (hasCategory "economic") articles)
  /\ totalOver Timeline.social days
     = List.length (filter (hasCategory "social") articles)
  /\ NoDup (map fst days)
  /\ (forall date day, In (date, day) days ->
        1 <= Timeline.count day
        /\ Timeline.military day + Timeline.diplomatic day
           + Timeline.economic day + Timeline.social day
           <= Timeline.count day)
  /\ (forall a, In a articles ->
        In (dateOf format now (publishedAt (raw a))) (map fst days)).
Proof.
  intros Hcat H.
  apply (grouped_fold articles [] [] days Hcat); [|exact H].
  unfold grouped. simpl. repeat split; try constructor; try tauto.
Qed.

End TimelineProperties.

Lemma timeline_totals_witness :
  let days :=
    [ ("1970-01-01",
       {| Timeline.count := 2; Timeline.military := 1; Timeline.diplomatic := 1;
          Timeline.economic := 0; Timeline.social := 0 |}) ] in
  totalOver Timeline.count days = 2
  /\ totalOver Timeline.military days = 1
  /\ totalOver Timeline.diplomatic days = 1
  /\ totalOver Timeline.economic days = 0
  /\ totalOver Timeline.social days = 0
  /\ NoDup (map fst days)
  /\ (forall date day, In (date, day) days ->
        1 <= Timeline.count day
        /\ Timeline.military day + Timeline.diplomatic day
           + Timeline.economic day + Timeline.social day
           <= Timeline.count day)
  /\ (forall a, In a sampleFeed ->
        In (dateOf sampleFormat 1000 (publishedAt (raw a))) (map fst days)).
Proof.
  apply (timeline_totals sampleFormat 1000 sampleFeed).
  - intros a [<- | [<- | []]]; simpl; tauto.
  - reflexivity.
Defined.

(** ** The categorizer of the earlier server *)

Lemma legacyHits_count (category : string) (keywords : list string)
      (text : string) :
  In (category, keywords) Legacy.categories ->
  legacyHits category text = Legacy.keywordCount text keywords.
Proof.
  unfold Legacy.categories; simpl.
  intros [H | [H | [H | [H | []]]]]; injection H as <- <-; reflexivity.
Qed.

Lemma legacy_cases (text : string) :
  let c := Legacy.categorizeArticle text in
  (c = "other" /\ legacyHits "military" text = 0
   /\ legacyHits "diplomatic" text = 0
   /\ legacyHits "economic" text = 0 /\ legacyHits "social" text = 0)
  \/ (c = "military" /\ 0 < legacyHits "military" text)
  \/ (c = "diplomatic" /\ 0 < legacyHits "diplomatic" text)
  \/ (c = "economic" /\ 0 < legacyHits "economic" text)
  \/ (c = "social" /\ 0 < legacyHits "social" text).
Proof.
  cbv zeta. unfold Legacy.categorizeArticle, legacyHits, Legacy.categories.
  cbn [fold_left find fst snd String.eqb Ascii.eqb Bool.eqb orb andb].
  repeat match goal with
         | |- context [(?a <? ?b)%nat] =>
             destruct (Nat.ltb_spec a b); cbn [fst snd]
         end;
    first [ left; repeat split; (reflexivity || lia)
          | right; left; split; [reflexivity | lia]
          | right; right; left; split; [reflexivity | lia]
          | right; right; right; left; split; [reflexivity | lia]
          | right; right; right; right; split; [reflexivity | lia] ].
Qed.

Lemma legacy_keywords_in_lexicon (category : string) (keywords : list string)
      (keyword : string) :
  In (category, keywords) Legacy.categories -> In keyword keywords ->
  exists keywords', In (category, keywords') Lexicon.categories
                    /\ In keyword keywords'.
Proof.
  intros Hc Hk. unfold Legacy.categories in Hc. simpl in Hc.
  destruct Hc as [E | [E | [E | [E | []]]]]; injection E as <- <-;
    (eexists; split;
     [unfold Lexicon.categories; simpl;
      first [left; reflexivity | right; left; reflexivity
             | right; right; left; reflexivity
             | right; right; right; left; reflexivity]
     | simpl in Hk |- *; tauto]).
Qed.

(** X26. The categorizer of the earlier server returns one of the five
    categories, and [other] exactly when none of its keywords occurs in
    the lower-cased text.  A text that it puts in a category is not put in
    [other] by the categorizer of the later server. *)
Theorem legacy_categorizeArticle_other (text : string) :
  In (Legacy.categorizeArticle text)
     ["military"; "diplomatic"; "economic"; "social"; "other"]
  /\ (Legacy.categorizeArticle text = "other" <->
      forall category keywords keyword,
        In (category, keywords) Legacy.categories -> In keyword keywords ->
        Js.includes (Js.toLowerCase text) keyword = false)
  /\ (Legacy.categorizeArticle text <> "other" ->
      categorizeArticle text <> "other").
Proof.
  pose proof (legacy_cases text) as H. cbv zeta in H.
  assert (Hzero : forall keywords,
             Legacy.keywordCount text keywords = 0 <->
             forall keyword, In keyword keywords ->
                             Js.includes (Js.toLowerCase text) keyword = false).
  { intros keywords. unfold Legacy.keywordCount. apply length_filter_zero. }
  assert (Hiff : Legacy.categorizeArticle text = "other" <->
                 forall category keywords keyword,
                   In (category, keywords) Legacy.categories -> In keyword keywords ->
                   Js.includes (Js.toLowerCase text) keyword = false).
  { destruct H as [[E [Hm [Hd [He Hs]]]] | H].
    - split; [|intros _; exact E]. intros _ category keywords keyword Hc.
      apply Hzero. rewrite <- (legacyHits_count _ _ text Hc).
      unfold Legacy.categories in Hc. simpl in Hc.
      destruct Hc as [F | [F | [F | [F | []]]]]; injection F as <- _; assumption.
    - assert (Hpos : Legacy.categorizeArticle text <> "other"
                     /\ exists category keywords,
                          In (category, keywords) Legacy.categories
                          /\ 0 < Legacy.keywordCount text keywords).
      { unfold legacyHits, Legacy.categories in H. simpl in H.
        destruct H as [[E P] | [[E P] | [[E P] | [E P]]]]; rewrite E;
          (split; [discriminate|]); eexists _, _;
          (split; [|exact P]); unfold Legacy.categories; simpl; tauto. }
      destruct Hpos as [Hne [category [keywords [Hc P]]]].
      split; [intros E; contradiction|].
      intros Hnone. exfalso.
      assert (Z0 : Legacy.keywordCount text keywords = 0)
        by (apply Hzero; intros keyword Hk; exact (Hnone _ _ _ Hc Hk)).
      lia. }
  split; [|split; [exact Hiff|]].
  - destruct H as [[-> _] | [[-> _] | [[-> _] | [[-> _] | [-> _]]]]];
      simpl; tauto.
  - intros Hne Hother. apply Hne. apply Hiff.
    intros category keywords keyword Hc Hk.
    destruct (legacy_keywords_in_lexicon _ _ _ Hc Hk) as [kws' [Hc' Hk']].
    pose proof (categorizeArticle_cases text) as G. cbv zeta in G.
    assert (Hall : hits "military" text = 0 /\ hits "diplomatic" text = 0
                   /\ hits "economic" text = 0 /\ hits "social" text = 0).
    { destruct G as [G | [G | [G | [G | G]]]]; destruct G as [E G];
        rewrite E in Hother; try discriminate Hother. exact G. }
    exact (proj1 (no_hits_iff_no_keyword text) Hall _ _ _ Hc' Hk').
Qed.

Lemma apiNews_entry_lifetime_witness :
  exists body w',
    apiNews sampleAnalyze providerUp (worldAt 0) = (Ok (Json body), w')
    /\ ((200 + 600000 < ttl)%Z ->
        forall next,
          apiNews sampleAnalyze next (later 600000 w')
          = (Ok (Json body), later 600000 w'))
    /\ ((ttl <= 200 + 600000)%Z ->
        forall next, exists reply w'',
          apiNews sampleAnalyze next (later 600000 w') = (Ok reply, w'')
          /\ fetches w'' = 2).
Proof.
  apply (apiNews_entry_lifetime sampleAnalyze providerUp (worldAt 0) "key"
                                sampleBody 600000).
  - reflexivity.
  - reflexivity.
  - discriminate.
  - reflexivity.
Defined.

(** ** Categorizer: what is counted *)

Lemma scanPositions_length (kw s : string) :
  forall skip pos,
    List.length (scanPositions kw skip pos s) = Js.scan kw skip s.
Proof.
  induction s as [|c s IH]; intros skip pos; simpl; [reflexivity|].
  destruct skip as [|k]; [|apply IH].
  destruct (Js.matchesAt kw (String c s)); simpl; now rewrite IH.
Qed.

(** What the scan finds, with the positions relative to the part of the
    text that is still to be read. *)
Lemma scanPositions_spec (kw s : string) :
  kw <> "" ->
  forall skip pos,
    StronglySorted (fun p q => p + String.length kw <= q)
                   (scanPositions kw skip pos s)
    /\ (forall p, In p (scanPositions kw skip pos s) ->
          pos + skip <= p
          /\ exists pre post, s = pre ++ post /\ pos + String.length pre = p
                              /\ Js.matchesAt kw post = true)
    /\ (forall pre post,
          s = pre ++ post -> skip <= String.length pre ->
          Js.matchesAt kw post = true ->
          exists p, In p (scanPositions kw skip pos s)
                    /\ p <= pos + String.length pre < p + String.length kw).
Proof.
  intros Hne.
  assert (Hlen : 1 <= String.length kw) by (destruct kw; [congruence | simpl; lia]).
  induction s as [|c s IH]; intros skip pos.
  - simpl. split; [constructor|]. split; [tauto|].
    intros pre post E _ Hm. destruct pre; [|discriminate]. simpl in E. subst post.
    destruct kw; [congruence | discriminate].
  - assert (Hlift : forall skip' p,
               pos + S skip' <= p ->
               (exists pre post, s = pre ++ post /\ S pos + String.length pre = p
                                 /\ Js.matchesAt kw post = true) ->
               exists pre post, String c s = pre ++ post
                                /\ pos + String.length pre = p
                                /\ Js.matchesAt kw post = true).
    { intros skip' p _ [pre [post [E [Hp Hm]]]]. exists (String c pre), post.
      simpl. rewrite E. repeat split; [lia | assumption]. }
    assert (Htail : forall skip' pre post,
               String c s = pre ++ post -> 1 <= String.length pre ->
               skip' <= String.length pre - 1 ->
               Js.matchesAt kw post = true ->
               (forall pre' post',
                   s = pre' ++ post' -> skip' <= String.length pre' ->
                   Js.matchesAt kw post' = true ->
                   exists p, In p (scanPositions kw skip' (S pos) s)
                             /\ p <= S pos + String.length pre'
                                < p + String.length kw) ->
               exists p, In p (scanPositions kw skip' (S pos) s)
                         /\ p <= pos + String.length pre < p + String.length kw).
    { intros skip' pre post E Hpre Hskip Hm Hcov.
      destruct pre as [|c' pre]; [simpl in Hpre; lia|].
      simpl in E. injection E as _ E. simpl in Hskip.
      destruct (Hcov pre post E) as [p [Hin Hp]]; [lia | assumption|].
      exists p. split; [assumption|]. simpl. lia. }
    destruct skip as [|k]; cbn [scanPositions].
    + destruct (Js.matchesAt kw (String c s)) eqn:Hhere.
      * destruct (IH (String.length kw - 1) (S pos)) as [Hs [Hb Hc]].
        split; [|split].
        -- constructor; [assumption|]. apply Forall_forall. intros q Hq.
           destruct (Hb q Hq) as [Hq' _]. lia.
        -- intros p [<- | Hp].
           ++ split; [lia|]. exists "", (String c s). simpl.
              repeat split; [lia | assumption].
           ++ destruct (Hb p Hp) as [Hp' Hocc]. split; [lia|].
              apply (Hlift (String.length kw - 1)); [lia | assumption].
        -- intros pre post E _ Hm.
           destruct (Nat.lt_ge_cases (String.length pre) (String.length kw))
             as [Hin | Hout].
           ++ exists pos. split; [now left | lia].
           ++ destruct (Htail (String.length kw - 1) pre post E) as [p [Hp Hr]];
                [lia | lia | assumption | exact Hc |].
              exists p. split; [now right | assumption].
      * destruct (IH 0 (S pos)) as [Hs [Hb Hc]]. split; [assumption|]. split.
        -- intros p Hp. destruct (Hb p Hp) as [Hp' Hocc]. split; [lia|].
           apply (Hlift 0); [lia | assumption].
        -- intros pre post E _ Hm.
           destruct pre as [|c' pre].
           ++ simpl in E. subst post. congruence.
           ++ apply (Htail 0 (String c' pre) post E); simpl; (lia || assumption).
    + destruct (IH k (S pos)) as [Hs [Hb Hc]]. split; [assumption|]. split.
      * intros p Hp. destruct (Hb p Hp) as [Hp' Hocc]. split; [lia|].
        apply (Hlift k); [lia | assumption].
      * intros pre post E Hk Hm.
        apply (Htail k pre post E); (lia || assumption).
Qed.

(** On a lower-case text the scan for a lower-case keyword counts the
    occurrences of the keyword from left to right without overlap. *)
Lemma matchCount_counts_occurrences (kw s : string) :
  kw <> "" -> Js.toLowerCase kw = kw -> Js.toLowerCase s = s ->
  exists ps, countedOccurrences kw s ps
             /\ List.length ps = Js.matchCount s kw.
Proof.
  intros Hne Hkw Hs. exists (scanPositions kw 0 0 s).
  split; [|apply scanPositions_length].
  destruct (scanPositions_spec kw s Hne 0 0) as [Hsorted [Hb Hc]].
  assert (Hexact : forall pre post,
             s = pre ++ post ->
             (Js.matchesAt kw post = true <-> exists post', post = kw ++ post')).
  { intros pre post E. rewrite matchesAt_startsWith;
      [apply startsWith_spec | assumption
       | apply (toLowerCase_suffix pre); now rewrite <- E]. }
  split; [exact Hsorted|]. split.
  - intros p Hp. destruct (Hb p Hp) as [_ [pre [post [E [Hlen Hm]]]]].
    apply (Hexact pre post E) in Hm. destruct Hm as [post' ->].
    exists pre, post'. split; [assumption | exact Hlen].
  - intros q [pre [post [E Hq]]].
    destruct (Hc pre (kw ++ post) E) as [p [Hp Hr]];
      [lia | apply (Hexact pre _ E); now exists post|].
    exists p. split; [assumption | lia].
Qed.

(** The counted occurrences are determined by the keyword and the text. *)
Lemma countedOccurrences_unique (kw s : string) (ps ps' : list nat) :
  countedOccurrences kw s ps -> countedOccurrences kw s ps' -> ps = ps'.
Proof.
  assert (G : forall ps ps' from,
             StronglySorted (fun p q => p + String.length kw <= q) ps ->
             StronglySorted (fun p q => p + String.length kw <= q) ps' ->
             (forall p, In p ps -> occursAt kw s p /\ from <= p) ->
             (forall p, In p ps' -> occursAt kw s p /\ from <= p) ->
             (forall q, from <= q -> occursAt kw s q ->
                        exists p, In p ps /\ p <= q < p + String.length kw) ->
             (forall q, from <= q -> occursAt kw s q ->
                        exists p, In p ps' /\ p <= q < p + String.length kw) ->
             ps = ps').
  { clear ps ps'. induction ps as [|p1 t IH]; intros ps' from Hs Hs' Hb Hb' Hc Hc'.
    - destruct ps' as [|p1' t']; [reflexivity|].
      destruct (Hb' p1' (or_introl eq_refl)) as [Ho Hf].
      destruct (Hc p1' Hf Ho) as [p [[] _]].
    - destruct ps' as [|p1' t'].
      + destruct (Hb p1 (or_introl eq_refl)) as [Ho Hf].
        destruct (Hc' p1 Hf Ho) as [p [[] _]].
      + inversion Hs as [|? ? Hst Hft]; subst.
        inversion Hs' as [|? ? Hst' Hft']; subst.
        rewrite Forall_forall in Hft, Hft'.
        assert (Hmin : forall p, In p (p1 :: t) -> p1 <= p).
        { intros p [<- | Hp]; [lia | specialize (Hft p Hp); lia]. }
        assert (Hmin' : forall p, In p (p1' :: t') -> p1' <= p).
        { intros p [<- | Hp]; [lia | specialize (Hft' p Hp); lia]. }
        assert (E : p1 = p1').
        { destruct (Hb p1 (or_introl eq_refl)) as [Ho Hf].
          destruct (Hc' p1 Hf Ho) as [p [Hp Hr]].
          destruct (Hb' p1' (or_introl eq_refl)) as [Ho' Hf'].
          destruct (Hc p1' Hf' Ho') as [p' [Hp' Hr']].
          specialize (Hmin p' Hp'). specialize (Hmin' p Hp). lia. }
        subst p1'. f_equal.
        apply (IH t' (p1 + String.length kw)); try assumption.
        * intros p Hp. split; [apply Hb; now right | now apply Hft].
        * intros p Hp. split; [apply Hb'; now right | now apply Hft'].
        * intros q Hq Ho.
          destruct (Hb p1 (or_introl eq_refl)) as [_ Hf].
          assert (Hfq : from <= q) by lia.
          destruct (Hc q Hfq Ho) as [p [[<- | Hp] Hr]]; [lia | eauto].
        * intros q Hq Ho.
          destruct (Hb p1 (or_introl eq_refl)) as [_ Hf].
          assert (Hfq : from <= q) by lia.
          destruct (Hc' q Hfq Ho) as [p [[<- | Hp] Hr]]; [lia | eauto]. }
  intros [Hs [Hb Hc]] [Hs' [Hb' Hc']].
  apply (G ps ps' 0); auto.
  - intros p Hp. split; [auto | lia].
  - intros p Hp. split; [auto | lia].
Qed.

Lemma keywordScore_sum (textLower : string) (keywords : list string) :
  keywordScore textLower keywords
  = list_sum (map (Js.matchCount textLower) keywords).
Proof.
  unfold keywordScore.
  assert (G : forall acc,
             fold_left (fun score keyword => score + Js.matchCount textLower keyword)
                       keywords acc
             = acc + list_sum (map (Js.matchCount textLower) keywords)).
  { induction keywords as [|k l IH]; intros acc; simpl; [lia|].
    rewrite IH. lia. }
  apply (G 0).
Qed.

(** The score of a category of the lexicon is the number of occurrences of
    its keywords in the lower-cased text. *)
Lemma hits_occurrences (category : string) (keywords : list string)
      (text : string) :
  In (category, keywords) Lexicon.categories ->
  categoryOccurrences category text (hits category text).
Proof.
  intros Hc. exists keywords. split; [assumption|].
  exists (map (Js.matchCount (Js.toLowerCase text)) keywords). split.
  - assert (Hall : forall kw, In kw keywords ->
                              Js.toLowerCase kw = kw /\ kw <> "")
      by (intros kw Hk; exact (lexicon_lower_case _ _ _ Hc Hk)).
    clear Hc. induction keywords as [|k l IH]; simpl; constructor.
    + destruct (Hall k (or_introl eq_refl)) as [Hlow Hne].
      apply matchCount_counts_occurrences;
        [assumption | assumption | apply toLowerCase_idempotent].
    + apply IH. intros kw Hk. apply Hall. now right.
  - rewrite (hits_score _ _ _ Hc). apply keywordScore_sum.
Qed.

(** C3. For every text, [categorizeArticle] returns one of the five
    categories.  For each category the occurrences of its keywords in the
    lower-cased text are counted, from left to right without overlap for
    each keyword (so that texts differing only in case get the same
    category).  The category with the highest count wins, the earlier one
    in the order military, diplomatic, economic, social on equal counts,
    and the result is [other] exactly when all four counts are 0, as they
    are for the empty text. *)
Theorem categorizeArticle_highest_score (text : string) :
  exists m d e s,
    categoryOccurrences "military" text m
    /\ categoryOccurrences "diplomatic" text d
    /\ categoryOccurrences "economic" text e
    /\ categoryOccurrences "social" text s
    /\ let c := categorizeArticle text in
       In c ["military"; "diplomatic"; "economic"; "social"; "other"]
       /\ (c = "military" <-> 0 < m /\ d <= m /\ e <= m /\ s <= m)
       /\ (c = "diplomatic" <-> m < d /\ e <= d /\ s <= d)
       /\ (c = "economic" <-> m < e /\ d < e /\ s <= e)
       /\ (c = "social" <-> m < s /\ d < s /\ e < s)
       /\ (c = "other" <-> m = 0 /\ d = 0 /\ e = 0 /\ s = 0)
       /\ (forall text', Js.toLowerCase text' = Js.toLowerCase text ->
                         categorizeArticle text' = c)
       /\ categorizeArticle "" = "other".
Proof.
  exists (hits "military" text), (hits "diplomatic" text),
         (hits "economic" text), (hits "social" text).
  assert (Hlex : forall category,
             In category ["military"; "diplomatic"; "economic"; "social"] ->
             categoryOccurrences category text (hits category text)).
  { intros category Hin.
    destruct (find (fun e => String.eqb (fst e) category) Lexicon.categories)
      as [[n kws]|] eqn:F.
    - apply find_some in F. destruct F as [Hc Hn].
      apply String.eqb_eq in Hn. simpl in Hn. subst n.
      exact (hits_occurrences _ _ text Hc).
    - exfalso. simpl in Hin.
      destruct Hin as [<- | [<- | [<- | [<- | []]]]]; discriminate F. }
  split; [apply Hlex; simpl; tauto|]. split; [apply Hlex; simpl; tauto|].
  split; [apply Hlex; simpl; tauto|]. split; [apply Hlex; simpl; tauto|].
  clear Hlex. intros c.
  set (m := hits "military" text). set (d := hits "diplomatic" text).
  set (e := hits "economic" text). set (s := hits "social" text).
  pose proof (categorizeArticle_cases text) as H. cbv zeta in H.
  fold c m d e s in H.
  assert (Hcase : forall text', Js.toLowerCase text' = Js.toLowerCase text ->
                                categorizeArticle text' = c).
  { intros text' E. subst c. unfold categorizeArticle. now rewrite E. }
  assert (Hempty : categorizeArticle "" = "other") by (vm_compute; reflexivity).
  clearbody c m d e s.
  assert (Hiff : forall P Q : Prop, (P -> Q) -> (Q -> P) -> (P <-> Q))
    by (intros; tauto).
  destruct H as [H | [H | [H | [H | H]]]]; destruct H as [-> H];
    (split; [simpl; tauto|]);
    repeat (split;
            [apply Hiff; intros;
             first [discriminate | reflexivity | lia | exfalso; lia]|]);
    split; assumption.
Qed.

Example scenario_counted_occurrences :
  categoryOccurrences "military" "WARWAR warship" 3.
Proof.
  change 3 with (hits "military" "WARWAR warship").
  eapply hits_occurrences. unfold Lexicon.categories. left. reflexivity.
Qed.
